(** * A shallow embedding of [a10.py], the Wikipedia question answering bot

    The program reads a question, tokenizes it, looks the tokens up in an
    ordered list of (pattern, action) rules, and the action of the first
    matching rule fetches a Wikipedia page, keeps the text of its first
    infobox, cleans it and pulls one fact out of it with a regular expression.

    Modelling choices.
    - A Python [str] is a Rocq [string]; a character is a Rocq [ascii], read
      as one of the code points U+0000..U+00FF.  Text with code points above
      U+00FF is outside the model.
    - Python exceptions are values of [exn]; a computation that prints and may
      raise is a value of [M A]: the events written to standard output so far
      and either a result or the exception raised.
    - The [wikipedia] and [bs4] packages are the fields of a [World].
    - The [re] module is a backtracking matcher over the regular expression
      syntax that the program's five patterns use.
    - [match] is imported from a module that is not part of the sources at
      hand; it is modelled from its specification. *)

From Stdlib Require Import String Ascii List Bool Arith Lia.
Import ListNotations.
Local Open Scope list_scope.
Local Open Scope string_scope.

(** ** Characters and the [str] methods the program calls *)

Module Str.

Definition code (c : ascii) : nat := nat_of_ascii c.

Definition between (lo hi : nat) (c : ascii) : bool :=
  ((lo <=? code c) && (code c <=? hi))%nat.

(** [c in s] for a one-character [c]. *)
Fixpoint mem (c : ascii) (s : string) : bool :=
  match s with
  | EmptyString => false
  | String d s' => Ascii.eqb c d || mem c s'
  end.

Definition nl : ascii := ascii_of_nat 10.
Definition dquote : ascii := ascii_of_nat 34.

(** [string.digits + string.ascii_letters + string.punctuation +
    string.whitespace], the value of [string.printable]. *)
Definition digits : string := "0123456789".
Definition ascii_lowercase : string := "abcdefghijklmnopqrstuvwxyz".
Definition ascii_uppercase : string := "ABCDEFGHIJKLMNOPQRSTUVWXYZ".
Definition punctuation : string :=
  "!" ++ String dquote "#$%&'()*+,-./:;<=>?@[\]^_`{|}~".
Definition whitespace : string :=
  String " " (String (ascii_of_nat 9) (String nl (String (ascii_of_nat 13)
    (String (ascii_of_nat 11) (String (ascii_of_nat 12) ""))))).
Definition printable : string :=
  digits ++ ascii_lowercase ++ ascii_uppercase ++ punctuation ++ whitespace.

(** [str.isspace] on one character: the Unicode white space below U+0100. *)
Definition isspace (c : ascii) : bool :=
  between 9 13 c || between 28 32 c || (code c =? 133)%nat || (code c =? 160)%nat.

(** [str.lower] on one character: A-Z and the Latin-1 capitals U+00C0..U+00DE
    (the multiplication sign U+00D7 apart) move up by 32. *)
Definition lower_char (c : ascii) : ascii :=
  if between 65 90 c || (between 192 222 c && negb (code c =? 215)%nat)
  then ascii_of_nat (code c + 32)
  else c.

Fixpoint map (f : ascii -> ascii) (s : string) : string :=
  match s with
  | EmptyString => EmptyString
  | String c s' => String (f c) (map f s')
  end.

Definition lower (s : string) : string := map lower_char s.

(** [s.startswith(p)]. *)
Fixpoint startswith (p s : string) : bool :=
  match p, s with
  | EmptyString, _ => true
  | String a p', String b s' => Ascii.eqb a b && startswith p' s'
  | String _ _, EmptyString => false
  end.

(** [s.replace(old, new)].  For a non-empty [old]: scan from the left, and at
    each occurrence of [old] write [new] and step over the occurrence
    ([skip] counts the characters of it still to step over).  For an empty
    [old], [new] goes before every character and at the end. *)
Fixpoint replace_from (old new s : string) (skip : nat) : string :=
  match s with
  | EmptyString => EmptyString
  | String c s' =>
      match skip with
      | S n => replace_from old new s' n
      | O =>
          if startswith old s
          then new ++ replace_from old new s' (String.length old - 1)
          else String c (replace_from old new s' 0)
      end
  end.

Fixpoint intersperse (new s : string) : string :=
  match s with
  | EmptyString => new
  | String c s' => new ++ String c (intersperse new s')
  end.

Definition replace (s old new : string) : string :=
  match old with
  | EmptyString => intersperse new s
  | String _ _ => replace_from old new s 0
  end.

(** [s.split()]: the maximal runs of characters that are not white space.
    [cur] is the word being read. *)
Fixpoint split_from (s cur : string) : list string :=
  match s with
  | EmptyString => match cur with EmptyString => [] | _ => [cur] end
  | String c s' =>
      if isspace c
      then match cur with
           | EmptyString => split_from s' ""
           | _ => cur :: split_from s' ""
           end
      else split_from s' (cur ++ String c "")
  end.

Definition split (s : string) : list string := split_from s "".

(** [sep.join(words)]. *)
Fixpoint join (sep : string) (words : list string) : string :=
  match words with
  | [] => ""
  | [w] => w
  | w :: ws => w ++ sep ++ join sep ws
  end.

End Str.

(** ** The [re] module

    The syntax covers what the patterns of the program are written in:
    ordinary characters, [.], the escapes [\d], [\w], [\s] and [\D], bracketed
    sets of characters and escapes, the quantifiers [*], [+], [?], [{n}] and
    the lazy [*?] on one-character atoms, [?] on a group, concatenation,
    [(?:...)] and [(?P<name>...)]. *)

Module Re.

Record flags : Type := { IGNORECASE : bool; DOTALL : bool }.

Inductive category : Type := Digit | Word | Space.

Inductive item : Type :=
| Chr (c : ascii)
| Cls (k : category).

Inductive atom : Type :=
| Lit (c : ascii)
| Dot
| Esc (neg : bool) (k : category)
| Set_ (neg : bool) (items : list item).

Inductive regex : Type :=
| Eps
| Atom (a : atom)
| Rep (a : atom) (lo : nat) (hi : option nat) (greedy : bool)
| Opt (r : regex)
| Seq (r1 r2 : regex)
| Group (name : string) (r : regex).

(** [str.isalnum] below U+0100: digits, letters, the ordinal indicators, the
    micro sign, superscript digits and vulgar fractions. *)
Definition isalnum (c : ascii) : bool :=
  Str.between 48 57 c || Str.between 65 90 c || Str.between 97 122 c
  || (Str.code c =? 170)%nat || Str.between 178 179 c || (Str.code c =? 181)%nat
  || Str.between 185 186 c || Str.between 188 190 c
  || Str.between 192 214 c || Str.between 216 246 c || Str.between 248 255 c.

Definition in_category (k : category) (c : ascii) : bool :=
  match k with
  | Digit => Str.between 48 57 c
  | Word => isalnum c || Ascii.eqb c "_"
  | Space => Str.isspace c
  end.

(** Two characters are the same to a pattern compiled with [IGNORECASE] when
    they have the same lower case. *)
Definition same_char (fl : flags) (a b : ascii) : bool :=
  if IGNORECASE fl
  then Ascii.eqb (Str.lower_char a) (Str.lower_char b)
  else Ascii.eqb a b.

Definition item_matches (fl : flags) (i : item) (c : ascii) : bool :=
  match i with
  | Chr d => same_char fl d c
  | Cls k => in_category k c
  end.

Definition atom_matches (fl : flags) (a : atom) (c : ascii) : bool :=
  match a with
  | Lit d => same_char fl d c
  | Dot => DOTALL fl || negb (Ascii.eqb c Str.nl)
  | Esc neg k => xorb neg (in_category k c)
  | Set_ neg items => xorb neg (existsb (fun i => item_matches fl i c) items)
  end.

(** The spans of the named groups, the most recent first. *)
Definition captures : Type := list (string * (nat * nat)).

Section Engine.

Variable fl : flags.
Variable R : Type.

(** [a{lo,hi}] on the text [s] that starts at offset [pos].  A greedy
    quantifier takes one more character before it tries the rest of the
    pattern [k]; a lazy one tries [k] first. *)
Fixpoint rep (a : atom) (greedy : bool) (lo : nat) (hi : option nat)
    (s : string) (pos : nat) (k : string -> nat -> option R) : option R :=
  let stop (_ : unit) := match lo with O => k s pos | S _ => None end in
  let more (_ : unit) :=
    match hi with
    | Some O => None
    | _ =>
        match s with
        | String c s' =>
            if atom_matches fl a c
            then rep a greedy (pred lo) (option_map pred hi) s' (S pos) k
            else None
        | EmptyString => None
        end
    end in
  if greedy
  then match more tt with Some x => Some x | None => stop tt end
  else match stop tt with Some x => Some x | None => more tt end.

(** The backtracking matcher: [run r s pos caps k] matches [r] at the head of
    [s], the text from offset [pos] on, and hands what is left to [k]; when
    [k] fails the next alternative of [r] is tried. *)
Fixpoint run (r : regex) (s : string) (pos : nat) (caps : captures)
    (k : string -> nat -> captures -> option R) : option R :=
  match r with
  | Eps => k s pos caps
  | Atom a =>
      match s with
      | String c s' => if atom_matches fl a c then k s' (S pos) caps else None
      | EmptyString => None
      end
  | Rep a lo hi greedy =>
      rep a greedy lo hi s pos (fun s' pos' => k s' pos' caps)
  | Opt r1 =>
      match run r1 s pos caps k with
      | Some x => Some x
      | None => k s pos caps
      end
  | Seq r1 r2 =>
      run r1 s pos caps (fun s' pos' caps' => run r2 s' pos' caps' k)
  | Group name r1 =>
      run r1 s pos caps
        (fun s' pos' caps' => k s' pos' ((name, (pos, pos')) :: caps'))
  end.

End Engine.

(** A match object: the text searched, the span of the match and the spans
    of the groups. *)
Record Match : Type := {
  m_string : string;
  m_start : nat;
  m_end : nat;
  m_groups : captures
}.

(** A compiled pattern. *)
Record Pattern : Type := { p_regex : regex; p_flags : flags }.

Definition compile (r : regex) (fl : flags) : Pattern :=
  {| p_regex := r; p_flags := fl |}.

(** A match that starts exactly at offset [pos], where [s] is the text from
    [pos] on.  With [must_advance] an empty match is not accepted and the
    matcher backtracks into its next alternative. *)
Definition match_at (must_advance : bool) (p : Pattern) (text s : string)
    (pos : nat) : option Match :=
  run (p_flags p) Match (p_regex p) s pos []
    (fun _ e caps =>
       if must_advance && (e =? pos)%nat
       then None
       else Some {| m_string := text; m_start := pos; m_end := e;
                    m_groups := caps |}).

(** [p.search(text)]: the match at the leftmost offset that has one. *)
Fixpoint search_from (p : Pattern) (text s : string) (pos : nat) : option Match :=
  match match_at false p text s pos with
  | Some m => Some m
  | None =>
      match s with
      | EmptyString => None
      | String _ s' => search_from p text s' (S pos)
      end
  end.

Definition search (p : Pattern) (text : string) : option Match :=
  search_from p text text 0.

Fixpoint lookup (name : string) (caps : captures) : option (nat * nat) :=
  match caps with
  | [] => None
  | (n, span) :: rest => if String.eqb n name then Some span else lookup name rest
  end.

(** [m.group(name)]; [None] when the match has no such group. *)
Definition group (m : Match) (name : string) : option string :=
  match lookup name (m_groups m) with
  | Some (b, e) => Some (substring b (e - b) (m_string m))
  | None => None
  end.

(** [re.sub(p, repl, text)] for a replacement without back references: from
    the left, every match is replaced and the scan goes on after it.  A match
    found at offset [pos] that ends at [e] leaves [e - pos] characters to step
    over ([skip]); after an empty match at [pos] the next match may start at
    [pos] again but must not be empty. *)
Fixpoint sub_from (p : Pattern) (repl text s : string) (pos skip : nat) : string :=
  match skip with
  | S n =>
      match s with
      | EmptyString => EmptyString
      | String _ s' => sub_from p repl text s' (S pos) n
      end
  | O =>
      match s with
      | EmptyString =>
          match match_at false p text s pos with
          | Some _ => repl
          | None => EmptyString
          end
      | String c s' =>
          let after (m : Match) :=
            (repl ++ sub_from p repl text s' (S pos) (m_end m - pos - 1))%string in
          let keep (_ : unit) := String c (sub_from p repl text s' (S pos) 0) in
          match match_at false p text s pos with
          | Some m =>
              if (m_end m =? pos)%nat
              then repl ++ match match_at true p text s pos with
                           | Some m' => after m'
                           | None => keep tt
                           end
              else after m
          | None => keep tt
          end
      end
  end.

(** A pattern compiled without flags. *)
Definition no_flags : flags := {| IGNORECASE := false; DOTALL := false |}.

Definition sub (r : regex) (repl text : string) : string :=
  sub_from (compile r no_flags) repl text text 0 0.

(** Pattern-building shorthands, named after the syntax they stand for. *)
Fixpoint lit (s : string) : regex :=
  match s with
  | EmptyString => Eps
  | String c s' => Seq (Atom (Lit c)) (lit s')
  end.

Definition seq (rs : list regex) : regex := fold_right Seq Eps rs.
Definition star (a : atom) : regex := Rep a 0 None true.
Definition plus (a : atom) : regex := Rep a 1 None true.
Definition lazy_star (a : atom) : regex := Rep a 0 None false.
Definition maybe (a : atom) : regex := Rep a 0 (Some 1) true.
Definition times (n : nat) (a : atom) : regex := Rep a n (Some n) true.

End Re.

(** ** Exceptions, standard output and the outside world *)

Inductive exn : Type :=
| AttributeError (msg : string)
| LookupError (msg : string)
| IndexError (msg : string)
| KeyboardInterrupt
| EOFError
| LibraryError (msg : string).
(* [LibraryError] stands for what the wikipedia package raises on its own:
   PageError, DisambiguationError, a failed HTTP request. *)

(** What the program writes: [Print s] is [print(s)], the text and a line
    break; [Prompt s] is the prompt of [input(s)]. *)
Inductive event : Type :=
| Print (s : string)
| Prompt (s : string).

Inductive outcome (A : Type) : Type :=
| Ret (a : A)
| Raise (e : exn).
Arguments Ret {A} a.
Arguments Raise {A} e.

(** A computation: the events written so far, and how it ended. *)
Definition M (A : Type) : Type := (list event * outcome A)%type.

Definition ret {A} (a : A) : M A := ([], Ret a).
Definition raise {A} (e : exn) : M A := ([], Raise e).
Definition lift {A} (o : outcome A) : M A := ([], o).
Definition print (s : string) : M unit := ([Print s], Ret tt).

Definition bind {A B} (m : M A) (f : A -> M B) : M B :=
  match m with
  | (out, Ret a) => let (out', r) := f a in ((out ++ out')%list, r)
  | (out, Raise e) => (out, Raise e)
  end.

Notation "x <- m ;; k" := (bind m (fun x => k))
  (at level 61, m at next level, right associativity).
Notation "m ;;; k" := (bind m (fun _ => k))
  (at level 61, right associativity).

(** [xs[0]]. *)
Definition first {A} (xs : list A) : M A :=
  match xs with
  | x :: _ => ret x
  | [] => raise (IndexError "list index out of range")
  end.

(** The two packages the program reaches the outside world through:
    [wikipedia.search(title)], [WikipediaPage(title).html()], and the [text]
    of each element that
    [BeautifulSoup(html, "html.parser").find_all(class_="infobox")] finds. *)
Record World : Type := {
  wikipedia_search : string -> outcome (list string);
  WikipediaPage_html : string -> outcome string;
  find_all_infobox : string -> list string
}.

(** ** The program *)

Section Program.

Variable W : World.

Definition get_page_html (title : string) : M string :=
  results <- lift (wikipedia_search W title) ;;
  top <- first results ;;
  lift (WikipediaPage_html W top).

Definition get_first_infobox_text (html : string) : M string :=
  match find_all_infobox W html with
  | [] => raise (LookupError "Page has no infobox")
  | box :: _ => ret box
  end.

Definition clean_text (text : string) : string :=
  let only_ascii :=
    Str.map (fun char => if Str.mem char Str.printable then char else " "%char)
      text in
  let no_dup_spaces := Re.sub (Re.plus (Re.Lit " ")) " " only_ascii in
  let no_dup_newlines :=
    Re.sub (Re.plus (Re.Lit Str.nl)) (String Str.nl "") no_dup_spaces in
  no_dup_newlines.

(** [re.DOTALL | re.IGNORECASE]. *)
Definition DOTALL_IGNORECASE : Re.flags :=
  {| Re.IGNORECASE := true; Re.DOTALL := true |}.

Definition default_error_text : string :=
  "Page doesn't appear to have the property you're expecting".

Definition get_match (text : string) (pattern : Re.regex) (error_text : string)
  : M Re.Match :=
  let p := Re.compile pattern DOTALL_IGNORECASE in
  match Re.search p text with
  | None => raise (AttributeError error_text)
  | Some m => ret m
  end.

(** [match.group(name)] where the caller formats it into its answer. *)
Definition group (m : Re.Match) (name : string) : M string :=
  match Re.group m name with
  | Some v => ret v
  | None => raise (IndexError "no such group")
  end.

(** The infobox text every [get_...] starts from. *)
Definition infobox_of (subject : string) : M string :=
  html <- get_page_html subject ;;
  box <- get_first_infobox_text html ;;
  ret (clean_text box).

(** The pattern [(?:Polar radius.*?)(?: ?[\d]+ )?(?P<radius>[\d,.]+)(?:.*?)km]. *)
Definition polar_radius_pattern : Re.regex :=
  Re.seq
    [ Re.seq [Re.lit "Polar radius"; Re.lazy_star Re.Dot];
      Re.Opt (Re.seq [ Re.maybe (Re.Lit " ");
                       Re.plus (Re.Set_ false [Re.Cls Re.Digit]);
                       Re.Atom (Re.Lit " ") ]);
      Re.Group "radius"
        (Re.plus (Re.Set_ false [Re.Cls Re.Digit; Re.Chr ","; Re.Chr "."]));
      Re.seq [Re.lazy_star Re.Dot];
      Re.lit "km" ].

Definition get_polar_radius (planet_name : string) : M string :=
  infobox_text <- infobox_of planet_name ;;
  let error_text := "Page infobox has no polar radius information" in
  m <- get_match infobox_text polar_radius_pattern error_text ;;
  radius <- group m "radius" ;;
  ret ("the polar radius of " ++ planet_name ++ " is " ++ radius ++ " km").

(** The pattern of [get_birth_date]: the non-capturing group of [Born] and
    [\D*], then the group [(?P<birth>\d{4}-\d{2}-\d{2})]. *)
Definition birth_pattern : Re.regex :=
  Re.seq
    [ Re.seq [Re.lit "Born"; Re.star (Re.Esc true Re.Digit)];
      Re.Group "birth"
        (Re.seq [ Re.times 4 (Re.Esc false Re.Digit); Re.Atom (Re.Lit "-");
                  Re.times 2 (Re.Esc false Re.Digit); Re.Atom (Re.Lit "-");
                  Re.times 2 (Re.Esc false Re.Digit) ]) ].

Definition get_birth_date (name : string) : M string :=
  infobox_text <- infobox_of name ;;
  let error_text :=
    "Page infobox has no birth information (at least none in xxxx-xx-xx format)" in
  m <- get_match infobox_text birth_pattern error_text ;;
  birth <- group m "birth" ;;
  ret (name ++ " was born on this date: " ++ birth).

(** The pattern [Population\D*\d{4}[)\[\d]*\D*(?P<Population>[\d,]+)]. *)
Definition population_pattern : Re.regex :=
  Re.seq
    [ Re.lit "Population";
      Re.star (Re.Esc true Re.Digit);
      Re.times 4 (Re.Esc false Re.Digit);
      Re.star (Re.Set_ false [Re.Chr ")"; Re.Chr "["; Re.Cls Re.Digit]);
      Re.star (Re.Esc true Re.Digit);
      Re.Group "Population"
        (Re.plus (Re.Set_ false [Re.Cls Re.Digit; Re.Chr ","])) ].

Definition get_population_size (place : string) : M string :=
  infobox_text <- infobox_of place ;;
  print infobox_text ;;;
  let error_text := "Page infobox has no population information" in
  m <- get_match infobox_text population_pattern error_text ;;
  population <- group m "Population" ;;
  ret (place ++ " has a population of " ++ population).

(** The pattern [Established[\n\s]*(?P<time>[\d\w\s,]+)[;\(]+]. *)
Definition establish_pattern : Re.regex :=
  Re.seq
    [ Re.lit "Established";
      Re.star (Re.Set_ false [Re.Chr Str.nl; Re.Cls Re.Space]);
      Re.Group "time"
        (Re.plus (Re.Set_ false
           [Re.Cls Re.Digit; Re.Cls Re.Word; Re.Cls Re.Space; Re.Chr ","]));
      Re.plus (Re.Set_ false [Re.Chr ";"; Re.Chr "("]) ].

Definition get_establish_year (thing : string) : M string :=
  infobox_text <- infobox_of thing ;;
  print infobox_text ;;;
  let error_text :=
    "Page infobox has no establishment information (at least not in the 'established' format)" in
  m <- get_match infobox_text establish_pattern error_text ;;
  time <- group m "time" ;;
  ret (thing ++ " was established in " ++ time).

(** The pattern [Undergraduates[\n\s]*(?P<Ugrad>[\d,]+)]. *)
Definition ugrad_pattern : Re.regex :=
  Re.seq
    [ Re.lit "Undergraduates";
      Re.star (Re.Set_ false [Re.Chr Str.nl; Re.Cls Re.Space]);
      Re.Group "Ugrad"
        (Re.plus (Re.Set_ false [Re.Cls Re.Digit; Re.Chr ","])) ].

Definition get_ugrad_pop (school : string) : M string :=
  infobox_text <- infobox_of school ;;
  print infobox_text ;;;
  let error_text :=
    "Page infobox has no information on undergraduate population" in
  m <- get_match infobox_text ugrad_pattern error_text ;;
  ugrad <- group m "Ugrad" ;;
  ret (school ++ " has an undergraduate population of " ++ ugrad).

(** *** Actions *)

Definition Pattern : Type := list string.
Definition Action : Type := list string -> M (list string).

Definition birth_date : Action := fun matches =>
  answer <- get_birth_date (Str.join " " matches) ;;
  ret [answer].

Definition polar_radius : Action := fun matches =>
  planet <- first matches ;;
  answer <- get_polar_radius planet ;;
  ret [answer].

Definition population_size : Action := fun matches =>
  place <- first matches ;;
  answer <- get_population_size place ;;
  ret [answer].

Definition establish_year : Action := fun matches =>
  thing <- first matches ;;
  answer <- get_establish_year thing ;;
  ret [answer].

Definition ugrad_pop : Action := fun matches =>
  school <- first matches ;;
  answer <- get_ugrad_pop school ;;
  ret [answer].

Definition bye_action : Action := fun dummy => raise KeyboardInterrupt.

Definition pa_list : list (Pattern * Action) :=
  [ (Str.split "when was % born", birth_date);
    (Str.split "what is the polar radius of %", polar_radius);
    (Str.split "When was % established", population_size);
    (Str.split "what is the population of %", population_size);
    (Str.split "what year was % established", establish_year);
    (Str.split "what is the undergraduate population of %", ugrad_pop);
    (["bye"], bye_action) ].

End Program.

(** ** The wildcard matcher *)

Definition wildcard : string := "%".

(** A literal of a pattern equals a token when both have the same lower
    case. *)
Definition literal_eq (p t : string) : bool :=
  String.eqb (Str.lower p) (Str.lower t).

(** The prefixes of [source] of [n], [n - 1], ..., 1 tokens, the longest
    first; [rest] matches what follows the prefix. *)
Fixpoint try_prefixes (rest : list string -> option (list string))
    (source : list string) (n : nat) : option (list string) :=
  match n with
  | O => None
  | S n' =>
      match rest (skipn n source) with
      | Some capture => Some (firstn n source ++ capture)%list
      | None => try_prefixes rest source n'
      end
  end.

(** Modelled from the spec: the function [match] of the module [match], which
    the program imports and whose source is not part of the sources at hand.
    An empty pattern matches the empty input, with an empty capture.  A
    literal at the head of the pattern needs a non-empty input whose head
    equals it case-insensitively, and the capture is that of the tails.  The
    wildcard marker at the head tries every non-empty prefix of the input,
    longest first; the first prefix after which the rest of the pattern
    matches the rest of the input is accepted and is prepended to the capture
    of the rest.  [None] is the failure to match. *)
Fixpoint match_ (pattern source : list string) : option (list string) :=
  match pattern with
  | [] => match source with [] => Some [] | _ :: _ => None end
  | p :: pattern' =>
      if String.eqb p wildcard
      then try_prefixes (match_ pattern') source (length source)
      else match source with
           | [] => None
           | t :: source' =>
               if literal_eq p t then match_ pattern' source' else None
           end
  end.

(** ** The dispatcher and the query loop *)

(** The loop of [search_pa_list] over the rules that are left. *)
Fixpoint search_rules (rules : list (Pattern * Action)) (src : list string)
  : M (list string) :=
  match rules with
  | [] => ret ["I don't understand"]
  | (pat, act) :: rest =>
      match match_ pat src with
      | Some mat =>
          answer <- act mat ;;
          ret (match answer with [] => ["No answers"] | _ :: _ => answer end)
      | None => search_rules rest src
      end
  end.

Definition search_pa_list (W : World) (src : list string) : M (list string) :=
  search_rules (pa_list W) src.

(** [input(prompt)]: [typed] is the line the user enters, or the exception
    that ends the read ([EOFError] at the end of standard input,
    [KeyboardInterrupt] on Ctrl-C). *)
Definition input (prompt : string) (typed : outcome string) : M string :=
  ([Prompt prompt], typed).

Fixpoint print_each (answers : list string) : M unit :=
  match answers with
  | [] => ret tt
  | ans :: rest => print ans ;;; print_each rest
  end.

(** The body of the [try] statement of [query_loop]. *)
Definition query_try (W : World) (typed : outcome string) : M unit :=
  print "" ;;;
  line <- input "Your query? " typed ;;
  let query := Str.split (Str.lower (Str.replace line "?" "")) in
  answers <- search_pa_list W query ;;
  print_each answers.

(** How one pass through the loop ends: the loop goes on, the loop is left
    through [break], or an exception that no [except] clause names leaves
    [query_loop]. *)
Inductive control : Type :=
| Continue
| Break
| Uncaught (e : exn).

(** One pass through the [while True] loop, with its two [except] clauses. *)
Definition query_turn (W : World) (typed : outcome string)
  : list event * control :=
  match query_try W typed with
  | (out, Ret _) => (out, Continue)
  | (out, Raise KeyboardInterrupt) => (out, Break)
  | (out, Raise EOFError) => (out, Break)
  | (out, Raise (AttributeError _)) =>
      ((out ++ [Print "Page does not match pattern!"])%list, Continue)
  | (out, Raise e) => (out, Uncaught e)
  end.

(** The passes through the loop, one per read; when [inputs] runs out the
    next read meets the end of standard input. *)
Fixpoint query_turns (W : World) (inputs : list (outcome string))
  : list event * control :=
  match inputs with
  | [] => query_turn W (Raise EOFError)
  | typed :: later =>
      match query_turn W typed with
      | (out, Continue) =>
          let (out', c) := query_turns W later in ((out ++ out')%list, c)
      | stopped => stopped
      end
  end.

(** [query_loop()]: everything written, and the exception the call ends
    with, if any. *)
Definition query_loop (W : World) (inputs : list (outcome string))
  : list event * option exn :=
  let welcome := Print ("Welcome to the wikipedia database!" ++ String Str.nl "") in
  let (out, c) := query_turns W inputs in
  match c with
  | Uncaught e => (welcome :: out, Some e)
  | _ =>
      ((welcome :: out ++ [Print (String Str.nl "So long!" ++ String Str.nl "")])%list,
       None)
  end.


(** ** A small world to run the program in

    Four pages with an infobox, taken from the session recorded at the end of
    [a10.py], one page without an infobox, and one title that the search
    finds nothing for.  A page's html is stood for by its title. *)

Definition e_acute : ascii := ascii_of_nat 233.

Definition example_infobox (html : string) : list string :=
  if String.eqb html "harvard" then
    ["Harvard UniversityTypePrivate research universityEstablishedOctober 28, 1636 (388 years ago) (1636-10-28)[4]FounderMassachusetts General Court"]
  else if String.eqb html "uiuc" then
    ["TypePublic land-grant research universityEstablished1867; 158 years ago (1867)Parent institutionUniversity of Illinois SystemUndergraduates37,140 (2024)[8]Postgraduates20,765 (2024)[8]"]
  else if String.eqb html "paris" then
    ["Metro (2021[2])18,940.7 km2 (7,313.0 sq mi)Population (Jan 2025[3])2,048,472 Rank9th in Europe1st in France"]
  else if String.eqb html "quebec" then
    ["Qu" ++ String e_acute "bec 15.4% of CanadaPopulation (2021)   "
       ++ String Str.nl (String Str.nl
            "Total8,501,833[2] Estimate (Q1 2025)9,111,629[3] Rank2nd")]
  else if String.eqb html "ada lovelace" then
    ["Ada LovelaceBornAugusta Ada Byron(1815-12-10)10 December 1815London, England"]
  else [].

Definition example_world : World := {|
  wikipedia_search := fun title =>
    if String.eqb title "xyzzy" then Ret [] else Ret [title];
  WikipediaPage_html := fun title => Ret title;
  find_all_infobox := example_infobox
|}.

(** A rule whose action matches and has nothing to say. *)
Definition silent_rules : list (Pattern * Action) :=
  [ (["hello"], fun _ => ret []) ].

(** ** Vocabulary of the properties *)

(** The tokens [query_loop] hands to [search_pa_list] for a line read. *)
Definition normalize (line : string) : list string :=
  Str.split (Str.lower (Str.replace line "?" "")).

(** The pattern of a rule does not match the tokens [src]. *)
Definition no_match (src : list string) (rule : Pattern * Action) : Prop :=
  match_ (fst rule) src = None.

(** What [search_pa_list] makes of the answers of an action. *)
Definition or_no_answers (answer : list string) : list string :=
  match answer with
  | [] => ["No answers"]
  | _ :: _ => answer
  end.



(** Every character of [s] passes the test [P]. *)
Fixpoint all_chars (P : ascii -> bool) (s : string) : bool :=
  match s with
  | EmptyString => true
  | String c s' => P c && all_chars P s'
  end.

(** A character as the normalisation of a question leaves it: in lower case
    and not a question mark. *)
Definition normalized_char (c : ascii) : bool :=
  Ascii.eqb (Str.lower_char c) c && negb (Ascii.eqb c "?").

(** Every character outside [string.printable] becomes a space: the first
    step of [clean_text]. *)
Definition blank_unprintable (text : string) : string :=
  Str.map (fun char => if Str.mem char Str.printable then char else " "%char)
    text.

(** Every run of the character [c] collapsed into one [c]: a [c] is kept
    when it starts a run and dropped when it continues one ([in_run]). *)
Fixpoint squeeze (c : ascii) (in_run : bool) (s : string) : string :=
  match s with
  | EmptyString => EmptyString
  | String d s' =>
      if Ascii.eqb d c
      then if in_run then squeeze c true s' else String c (squeeze c true s')
      else String d (squeeze c false s')
  end.

Definition collapse_runs (c : ascii) (s : string) : string := squeeze c false s.

(** The cleaning as the specification words it: the characters outside the
    printable set are removed, then the runs are collapsed. *)
Fixpoint remove_unprintable (text : string) : string :=
  match text with
  | EmptyString => EmptyString
  | String c text' =>
      if Str.mem c Str.printable
      then String c (remove_unprintable text')
      else remove_unprintable text'
  end.

Definition clean_by_removal (text : string) : string :=
  collapse_runs Str.nl (collapse_runs " " (remove_unprintable text)).

(** The number of [c] that [s] starts with. *)
Fixpoint run_length (c : ascii) (s : string) : nat :=
  match s with
  | EmptyString => 0
  | String d s' => if Ascii.eqb c d then S (run_length c s') else 0
  end.

(** No two neighbours in [s] are both [c]; [prev] is the character before
    [s]. *)
Fixpoint no_double_after (c prev : ascii) (s : string) : bool :=
  match s with
  | EmptyString => true
  | String d s' =>
      negb (Ascii.eqb prev c && Ascii.eqb d c) && no_double_after c d s'
  end.

Definition no_double (c : ascii) (s : string) : bool :=
  match s with
  | EmptyString => true
  | String d s' => no_double_after c d s'
  end.

(** [text[i:]]. *)
Fixpoint suffix_at (i : nat) (text : string) : string :=
  match i, text with
  | O, _ => text
  | S i', String _ text' => suffix_at i' text'
  | S _, EmptyString => EmptyString
  end.


(** The pattern ["c+"] as [clean_text] compiles it. *)
Definition run_pattern (c : ascii) : Re.Pattern :=
  Re.compile (Re.plus (Re.Lit c)) Re.no_flags.

(** The text "Established\n1867; 158 years ago (1867)" of a fact block. *)
Definition established_block : string :=
  "Established" ++ String Str.nl "1867; 158 years ago (1867)".

(** What one pass through the loop writes before the dispatcher runs. *)
Definition turn_preamble : list event := [Print ""; Prompt "Your query? "].

Definition diagnostic : event := Print "Page does not match pattern!".

(** ** Vocabulary of the further properties *)

(** The word [v] stands somewhere in [text]. *)
Definition occurs_in (v text : string) : Prop :=
  exists before after, text = before ++ v ++ after.

(** The words a pattern matches, whatever the order its alternatives are
    tried in. *)
Fixpoint lang (fl : Re.flags) (r : Re.regex) (w : string) : Prop :=
  match r with
  | Re.Eps => w = ""
  | Re.Atom a => exists c, w = String c "" /\ Re.atom_matches fl a c = true
  | Re.Rep a lo hi _ =>
      all_chars (Re.atom_matches fl a) w = true
      /\ lo <= String.length w
      /\ match hi with Some h => String.length w <= h | None => True end
  | Re.Opt r1 => w = "" \/ lang fl r1 w
  | Re.Seq r1 r2 => exists w1 w2, w = w1 ++ w2 /\ lang fl r1 w1 /\ lang fl r2 w2
  | Re.Group _ r1 => lang fl r1 w
  end.

(** The named groups of a pattern, each with its own pattern. *)
Fixpoint groups_of (r : Re.regex) : list (string * Re.regex) :=
  match r with
  | Re.Group name r1 => (name, r1) :: groups_of r1
  | Re.Seq r1 r2 => (groups_of r1 ++ groups_of r2)%list
  | Re.Opt r1 => groups_of r1
  | _ => []
  end.

(** The groups that take part in every match: those not under a [?]. *)
Fixpoint mandatory (r : Re.regex) : list string :=
  match r with
  | Re.Group name r1 => name :: mandatory r1
  | Re.Seq r1 r2 => (mandatory r1 ++ mandatory r2)%list
  | _ => []
  end.

(** Every recorded span holds a word of the pattern of its group, and that
    word stands in [text]. *)
Definition spans_sound (fl : Re.flags) (text : string)
    (G : list (string * Re.regex)) (caps : Re.captures) : Prop :=
  Forall (fun named =>
            exists r1,
              In (fst named, r1) G
              /\ lang fl r1 (substring (fst (snd named))
                               (snd (snd named) - fst (snd named)) text)
              /\ occurs_in (substring (fst (snd named))
                              (snd (snd named) - fst (snd named)) text) text)
         caps.

(** The exceptions that [query_loop] has an [except] clause for. *)
Definition handled (e : exn) : Prop :=
  match e with
  | AttributeError _ | KeyboardInterrupt | EOFError => True
  | _ => False
  end.

(** * Properties *)


Example split_pattern :
  Str.split "when was % born" = ["when"; "was"; "%"; "born"].
Proof. reflexivity. Qed.

Example normalise_question :
  Str.split (Str.lower (Str.replace "What is the population of Quebec?" "?" ""))
  = ["what"; "is"; "the"; "population"; "of"; "quebec"].
Proof. reflexivity. Qed.

Example join_words : Str.join " " ["ada"; "lovelace"] = "ada lovelace".
Proof. reflexivity. Qed.




(** The session recorded at the end of [a10.py], on the pages of the small
    world. *)
Example recorded_session :
  query_loop example_world
    [ Ret "What is the population of Quebec?";
      Ret "What year was Harvard established";
      Ret "What is the undergraduate population of uiuc?";
      Ret "what is the population of paris";
      Ret "bye" ]
  = ([ Print ("Welcome to the wikipedia database!" ++ String Str.nl "");
       Print ""; Prompt "Your query? ";
       Print ("Qu bec 15.4% of CanadaPopulation (2021) " ++ String Str.nl
                "Total8,501,833[2] Estimate (Q1 2025)9,111,629[3] Rank2nd");
       Print "quebec has a population of 8,501,833";
       Print ""; Prompt "Your query? ";
       Print "Harvard UniversityTypePrivate research universityEstablishedOctober 28, 1636 (388 years ago) (1636-10-28)[4]FounderMassachusetts General Court";
       Print "harvard was established in October 28, 1636 ";
       Print ""; Prompt "Your query? ";
       Print "TypePublic land-grant research universityEstablished1867; 158 years ago (1867)Parent institutionUniversity of Illinois SystemUndergraduates37,140 (2024)[8]Postgraduates20,765 (2024)[8]";
       Print "uiuc has an undergraduate population of 37,140";
       Print ""; Prompt "Your query? ";
       Print "Metro (2021[2])18,940.7 km2 (7,313.0 sq mi)Population (Jan 2025[3])2,048,472 Rank9th in Europe1st in France";
       Print "paris has a population of 2,048,472";
       Print ""; Prompt "Your query? ";
       Print (String Str.nl "So long!" ++ String Str.nl "") ],
     None).
Proof. vm_compute. reflexivity. Qed.

(** ** The monad *)

Lemma bind_ret_r {A} (m : M A) : bind m ret = m.
Proof.
  destruct m as [out [a | e]]; simpl; [rewrite app_nil_r |]; reflexivity.
Qed.

Lemma bind_ret_l {A B} (a : A) (f : A -> M B) : bind (ret a) f = f a.
Proof. unfold bind, ret. destruct (f a). reflexivity. Qed.

Lemma bind_raise {A B} (out : list event) (e : exn) (f : A -> M B) :
  bind (out, Raise e) f = (out, Raise e).
Proof. reflexivity. Qed.

Lemma bind_ret_value {A B} (out : list event) (a : A) (f : A -> B) :
  bind (out, Ret a) (fun x => ret (f x)) = (out, Ret (f a)).
Proof. simpl. rewrite app_nil_r. reflexivity. Qed.

Lemma bind_Ret_inv {A B} (m : M A) (f : A -> M B) (out : list event) (b : B) :
  bind m f = (out, Ret b) ->
  exists o1 a o2, m = (o1, Ret a) /\ f a = (o2, Ret b) /\ out = (o1 ++ o2)%list.
Proof.
  destruct m as [o1 [a | e]]; simpl; [| discriminate].
  destruct (f a) as [o2 r] eqn:Hf. intros [= <- ->].
  exists o1, a, o2. auto.
Qed.

(** ** The dispatcher *)

Section Dispatcher.

Variable src : list string.

Lemma search_rules_skip (before rest : list (Pattern * Action)) :
  Forall (no_match src) before ->
  search_rules (before ++ rest) src = search_rules rest src.
Proof.
  induction 1 as [| [pat act] before' Hhead _ IH]; simpl.
  - reflexivity.
  - unfold no_match in Hhead. simpl in Hhead. rewrite Hhead. exact IH.
Qed.

Lemma search_rules_first (before after : list (Pattern * Action))
    (pat : Pattern) (act : Action) (mat : list string) :
  Forall (no_match src) before ->
  match_ pat src = Some mat ->
  search_rules (before ++ (pat, act) :: after) src
  = bind (act mat) (fun answer => ret (or_no_answers answer)).
Proof.
  intros Hbefore Hpat.
  rewrite search_rules_skip by assumption.
  simpl. rewrite Hpat. reflexivity.
Qed.

End Dispatcher.

(** C4: when the tokens match no pattern of the rule registry,
    [search_pa_list] returns exactly ["I don't understand"]: nothing is
    written and no exception is raised. *)
Theorem unmatched_input_not_understood (W : World) (src : list string) :
  Forall (no_match src) (pa_list W) ->
  search_pa_list W src = ([], Ret ["I don't understand"]).
Proof.
  intros Hnone. unfold search_pa_list.
  rewrite <- (app_nil_r (pa_list W)).
  rewrite search_rules_skip by assumption.
  reflexivity.
Qed.

Lemma unmatched_input_not_understood_witness :
  Forall (no_match ["good"; "morning"]) (pa_list example_world)
  /\ search_pa_list example_world ["good"; "morning"]
     = ([], Ret ["I don't understand"]).
Proof.
  assert (H : Forall (no_match ["good"; "morning"]) (pa_list example_world))
    by (repeat constructor).
  split; [exact H | exact (unmatched_input_not_understood _ _ H)].
Defined.

(** C5: when the action of the first matching rule returns its answers, the
    dispatcher returns ["No answers"] if they are empty and the answers
    themselves otherwise, whatever the registry [rules] is;
    [search_pa_list W] is [search_rules (pa_list W)]. *)
Theorem answers_verbatim_or_no_answers
    (rules before after : list (Pattern * Action)) (pat : Pattern)
    (act : Action) (src mat : list string) (out : list event)
    (answer : list string) :
  rules = (before ++ (pat, act) :: after)%list ->
  Forall (no_match src) before ->
  match_ pat src = Some mat ->
  act mat = (out, Ret answer) ->
  search_rules rules src = (out, Ret (or_no_answers answer))
  /\ (answer = [] -> search_rules rules src = (out, Ret ["No answers"]))
  /\ (answer <> [] -> search_rules rules src = (out, Ret answer)).
Proof.
  intros -> Hbefore Hpat Hact.
  assert (Hrun : search_rules (before ++ (pat, act) :: after) src
                 = (out, Ret (or_no_answers answer))).
  { rewrite (search_rules_first src before after pat act mat) by assumption.
    rewrite Hact. apply bind_ret_value. }
  split; [exact Hrun |]. split.
  - intros ->. exact Hrun.
  - intros Hsome. rewrite Hrun. destruct answer; [contradiction | reflexivity].
Qed.

Lemma answers_verbatim_or_no_answers_witness :
  search_rules (pa_list example_world)
    (normalize "What is the population of Paris?")
  = ([Print "Metro (2021[2])18,940.7 km2 (7,313.0 sq mi)Population (Jan 2025[3])2,048,472 Rank9th in Europe1st in France"],
     Ret ["paris has a population of 2,048,472"])
  /\ search_rules silent_rules ["hello"] = ([], Ret ["No answers"]).
Proof.
  split.
  - assert (Hsrc : normalize "What is the population of Paris?"
                   = ["what"; "is"; "the"; "population"; "of"; "paris"])
      by (vm_compute; reflexivity).
    rewrite Hsrc.
    refine (proj2 (proj2 (answers_verbatim_or_no_answers
              (pa_list example_world)
              (firstn 3 (pa_list example_world))
              (skipn 4 (pa_list example_world))
              (Str.split "what is the population of %")
              (population_size example_world)
              ["what"; "is"; "the"; "population"; "of"; "paris"]
              ["paris"] _ ["paris has a population of 2,048,472"]
              eq_refl _ _ _)) _).
    + repeat constructor.
    + vm_compute; reflexivity.
    + vm_compute; reflexivity.
    + discriminate.
  - refine (proj1 (proj2 (answers_verbatim_or_no_answers
              silent_rules [] [] ["hello"] (fun _ => ret []) ["hello"] []
              [] [] eq_refl _ eq_refl eq_refl)) eq_refl).
    constructor.
Defined.

(** ** One pass through the query loop *)

Lemma query_turn_dispatch (W : World) (line : string) (out : list event)
    (r : outcome (list string)) :
  search_pa_list W (normalize line) = (out, r) ->
  query_try W (Ret line)
  = bind (turn_preamble ++ out, r)%list print_each.
Proof.
  intros Hs. unfold query_try, print, input. cbn [bind].
  fold (normalize line). rewrite Hs.
  destruct r as [answers | e]; cbn [bind app].
  - destruct (print_each answers) as [out' r']. reflexivity.
  - reflexivity.
Qed.

(** C1: when the action of the first rule that matches a question raises the
    [AttributeError] of [get_match], the pass through the query loop writes
    what the action had written, then the one line
    "Page does not match pattern!", and the loop goes on; the outcome does
    not depend on the rules after the matching one, none of which is
    tried. *)
Theorem field_not_found_single_diagnostic
    (W : World) (line : string) (before after : list (Pattern * Action))
    (pat : Pattern) (act : Action) (mat : list string) (out : list event)
    (msg : string) :
  pa_list W = (before ++ (pat, act) :: after)%list ->
  Forall (no_match (normalize line)) before ->
  match_ pat (normalize line) = Some mat ->
  act mat = (out, Raise (AttributeError msg)) ->
  query_turn W (Ret line)
  = ((turn_preamble ++ out ++ [diagnostic])%list, Continue)
  /\ forall after',
       search_rules (before ++ (pat, act) :: after') (normalize line)
       = (out, Raise (AttributeError msg)).
Proof.
  intros Hrules Hbefore Hpat Hact.
  assert (Hany : forall after',
             search_rules (before ++ (pat, act) :: after') (normalize line)
             = (out, Raise (AttributeError msg))).
  { intros after'.
    rewrite (search_rules_first _ before after' pat act mat) by assumption.
    rewrite Hact. reflexivity. }
  split; [| exact Hany].
  unfold query_turn.
  rewrite (query_turn_dispatch W line out (Raise (AttributeError msg))).
  - cbn [bind]. rewrite <- app_assoc. reflexivity.
  - unfold search_pa_list. rewrite Hrules. apply Hany.
Qed.

Lemma field_not_found_single_diagnostic_witness :
  query_turn example_world (Ret "What is the population of uiuc?")
  = ([Print ""; Prompt "Your query? ";
      Print "TypePublic land-grant research universityEstablished1867; 158 years ago (1867)Parent institutionUniversity of Illinois SystemUndergraduates37,140 (2024)[8]Postgraduates20,765 (2024)[8]";
      Print "Page does not match pattern!"], Continue).
Proof.
  refine (proj1 (field_not_found_single_diagnostic example_world
            "What is the population of uiuc?"
            (firstn 3 (pa_list example_world))
            (skipn 4 (pa_list example_world))
            (Str.split "what is the population of %")
            (population_size example_world)
            ["uiuc"]
            [Print "TypePublic land-grant research universityEstablished1867; 158 years ago (1867)Parent institutionUniversity of Illinois SystemUndergraduates37,140 (2024)[8]Postgraduates20,765 (2024)[8]"]
            "Page infobox has no population information"
            eq_refl _ _ _)).
  - repeat (constructor; [vm_compute; reflexivity |]). constructor.
  - vm_compute; reflexivity.
  - vm_compute; reflexivity.
Defined.

(** ** The rule for "When was % established" *)

Lemma singleton_answer_kept (m : M string) :
  bind (bind m (fun a => ret [a])) (fun answer => ret (or_no_answers answer))
  = bind m (fun a => ret [a]).
Proof.
  destruct m as [out [a | e]]; simpl; [rewrite !app_nil_r |]; reflexivity.
Qed.

Lemma population_size_answer (W : World) (mat : list string)
    (out : list event) (answers : list string) :
  population_size W mat = (out, Ret answers) ->
  exists place others population,
    mat = place :: others
    /\ answers = [place ++ " has a population of " ++ population].
Proof.
  unfold population_size. intros Hrun.
  apply bind_Ret_inv in Hrun as (o1 & place & o2 & Hfirst & Hrun & _).
  destruct mat as [| place' others]; [discriminate |].
  injection Hfirst as _ <-.
  apply bind_Ret_inv in Hrun as (o3 & answer & o4 & Hget & [= _ <-] & _).
  unfold get_population_size in Hget.
  apply bind_Ret_inv in Hget as (o5 & text & o6 & _ & Hget & _).
  apply bind_Ret_inv in Hget as (o7 & [] & o8 & _ & Hget & _).
  apply bind_Ret_inv in Hget as (o9 & m & o10 & _ & Hget & _).
  apply bind_Ret_inv in Hget as (o11 & population & o12 & _ & [= _ <-] & _).
  exists place', others, population. auto.
Qed.

(** C10: the third rule of the registry pairs the pattern
    "When was % established" with [population_size]; for tokens that match it
    and neither of the two patterns before it, [search_pa_list] is the run of
    [population_size] on the capture, and every answer it returns is the
    sentence "<place> has a population of <number>" for the first captured
    token. *)
Theorem established_pattern_answers_population
    (W : World) (src mat : list string) :
  match_ (Str.split "when was % born") src = None ->
  match_ (Str.split "what is the polar radius of %") src = None ->
  match_ (Str.split "When was % established") src = Some mat ->
  nth_error (pa_list W) 2
  = Some (Str.split "When was % established", population_size W)
  /\ search_pa_list W src = population_size W mat
  /\ forall out answers,
       search_pa_list W src = (out, Ret answers) ->
       exists place others population,
         mat = place :: others
         /\ answers = [place ++ " has a population of " ++ population].
Proof.
  intros Hborn Hradius Hestablished.
  assert (Hrun : search_pa_list W src = population_size W mat).
  { unfold search_pa_list, pa_list.
    cbn [search_rules]. rewrite Hborn, Hradius, Hestablished.
    change (bind (population_size W mat)
              (fun answer => ret (or_no_answers answer))
            = population_size W mat).
    unfold population_size.
    destruct mat as [| place others]; [reflexivity |].
    unfold first. rewrite !bind_ret_l. apply singleton_answer_kept. }
  split; [reflexivity |]. split; [exact Hrun |].
  intros out answers Hans. rewrite Hrun in Hans.
  exact (population_size_answer W mat out answers Hans).
Qed.

Lemma established_pattern_answers_population_witness :
  search_pa_list example_world (normalize "When was Paris established?")
  = ([Print "Metro (2021[2])18,940.7 km2 (7,313.0 sq mi)Population (Jan 2025[3])2,048,472 Rank9th in Europe1st in France"],
     Ret ["paris has a population of 2,048,472"]).
Proof.
  assert (Hsrc : normalize "When was Paris established?"
                 = ["when"; "was"; "paris"; "established"])
    by (vm_compute; reflexivity).
  rewrite Hsrc.
  rewrite (proj1 (proj2 (established_pattern_answers_population example_world
             ["when"; "was"; "paris"; "established"] ["paris"]
             ltac:(vm_compute; reflexivity) ltac:(vm_compute; reflexivity)
             ltac:(vm_compute; reflexivity)))).
  vm_compute. reflexivity.
Defined.

(** The same infobox answers the establishment question through the rule
    "what year was % established". *)
Example established_year_of_uiuc :
  snd (search_pa_list example_world (normalize "What year was uiuc established?"))
  = Ret ["uiuc was established in 1867"]
  /\ snd (search_pa_list example_world (normalize "When was uiuc established?"))
     = Raise (AttributeError "Page infobox has no population information").
Proof. split; vm_compute; reflexivity. Qed.

(** ** Errors of the document provider *)

Lemma uncaught_error_leaves_the_loop (W : World) (line : string)
    (out : list event) (e : exn) :
  search_pa_list W (normalize line) = (out, Raise e) ->
  (forall msg, e <> AttributeError msg) ->
  e <> KeyboardInterrupt ->
  e <> EOFError ->
  query_turn W (Ret line) = ((turn_preamble ++ out)%list, Uncaught e).
Proof.
  intros Hs Hattr Hkey Heof. unfold query_turn.
  rewrite (query_turn_dispatch W line out (Raise e) Hs). cbn [bind].
  destruct e; try reflexivity; exfalso; eauto.
  exact (Hattr msg eq_refl).
Qed.

(** C3: a page without an infobox makes [get_first_infobox_text] raise
    [LookupError], and a subject that the search finds nothing for makes
    [get_page_html] raise [IndexError]; neither is named by an [except]
    clause of [query_loop], so the call ends with the exception: the next
    question is never read and no farewell is written. *)
Theorem document_errors_end_the_session :
  query_loop example_world
    [Ret "What is the population of Atlantis?"; Ret "bye"]
  = ([Print ("Welcome to the wikipedia database!" ++ String Str.nl "");
      Print ""; Prompt "Your query? "],
     Some (LookupError "Page has no infobox"))
  /\ query_loop example_world
       [Ret "What is the population of xyzzy?"; Ret "bye"]
     = ([Print ("Welcome to the wikipedia database!" ++ String Str.nl "");
         Print ""; Prompt "Your query? "],
        Some (IndexError "list index out of range"))
  /\ query_turn example_world (Ret "What is the population of uiuc?")
     = ([Print ""; Prompt "Your query? ";
         Print "TypePublic land-grant research universityEstablished1867; 158 years ago (1867)Parent institutionUniversity of Illinois SystemUndergraduates37,140 (2024)[8]Postgraduates20,765 (2024)[8]";
         diagnostic], Continue).
Proof. repeat split; vm_compute; reflexivity. Qed.

(** ** The wildcard matcher *)

Lemma try_prefixes_Some (rest : list string -> option (list string))
    (source : list string) (n : nat) (capture : list string) :
  try_prefixes rest source n = Some capture ->
  exists k more,
    1 <= k <= n
    /\ rest (skipn k source) = Some more
    /\ capture = (firstn k source ++ more)%list.
Proof.
  induction n as [| n IH]; cbn [try_prefixes].
  - discriminate.
  - destruct (rest (skipn (S n) source)) as [more |] eqn:Hrest.
    + intros Heq. injection Heq as Heq. subst capture.
      exists (S n), more. repeat split; auto; lia.
    + intros Hlater. destruct (IH Hlater) as (k & more & Hk & Hm & Hc).
      exists k, more. repeat split; auto; lia.
Qed.

Lemma match_wildcard_unfold (rest source : list string) :
  match_ (wildcard :: rest) source
  = try_prefixes (match_ rest) source (length source).
Proof. reflexivity. Qed.

(** C9: "when was % born" captures exactly "ada", "lovelace" from
    "when was ada lovelace born"; the wildcard alone does not match the empty
    input; and whenever a pattern that starts with the wildcard matches, the
    wildcard has taken a prefix of at least one token, after which the rest
    of the pattern matches the rest of the input. *)
Theorem wildcard_binds_at_least_one_token :
  match_ ["when"; "was"; "%"; "born"]
         ["when"; "was"; "ada"; "lovelace"; "born"]
  = Some ["ada"; "lovelace"]
  /\ match_ ["%"] [] = None
  /\ forall rest source capture,
       match_ (wildcard :: rest) source = Some capture ->
       exists k more,
         1 <= k <= length source
         /\ match_ rest (skipn k source) = Some more
         /\ capture = (firstn k source ++ more)%list.
Proof.
  split; [vm_compute; reflexivity |].
  split; [vm_compute; reflexivity |].
  intros rest source capture Hm.
  rewrite match_wildcard_unfold in Hm.
  exact (try_prefixes_Some _ _ _ _ Hm).
Qed.

Lemma wildcard_binds_at_least_one_token_witness :
  exists k more,
    1 <= k <= 3
    /\ match_ ["born"] (skipn k ["ada"; "lovelace"; "born"]) = Some more
    /\ ["ada"; "lovelace"] = (firstn k ["ada"; "lovelace"; "born"] ++ more)%list.
Proof.
  exact (proj2 (proj2 wildcard_binds_at_least_one_token)
           ["born"] ["ada"; "lovelace"; "born"] ["ada"; "lovelace"] eq_refl).
Defined.




(** *** The tokens of a normalised question *)



Lemma replace_question_mark (s : string) (skip : nat) :
  all_chars (fun c => negb (Ascii.eqb c "?")) (Str.replace_from "?" "" s skip)
  = true.
Proof.
  revert skip. induction s as [| c s IH]; intros skip.
  - reflexivity.
  - cbn [Str.replace_from Str.startswith String.length Nat.sub].
    destruct skip as [| n]; [| apply IH].
    destruct (Ascii.eqb "?" c) eqn:Hc; cbn [andb].
    + apply IH.
    + cbn [all_chars]. rewrite IH, andb_true_r.
      rewrite Ascii.eqb_sym, Hc. reflexivity.
Qed.

Lemma lower_char_normalized (c : ascii) :
  negb (Ascii.eqb c "?") = true -> normalized_char (Str.lower_char c) = true.
Proof.
  destruct c as [[] [] [] [] [] [] [] []]; vm_compute; auto.
Qed.

Lemma lower_all_normalized (s : string) :
  all_chars (fun c => negb (Ascii.eqb c "?")) s = true ->
  all_chars normalized_char (Str.lower s) = true.
Proof.
  induction s as [| c s IH]; [reflexivity |].
  cbn [all_chars Str.lower Str.map].
  intros H. apply andb_prop in H as [Hc Hs].
  rewrite (lower_char_normalized c Hc). exact (IH Hs).
Qed.


Lemma normalized_token (tok : string) :
  all_chars normalized_char tok = true ->
  Str.lower tok = tok /\ Str.mem "?" tok = false.
Proof.
  induction tok as [| c tok IH]; [auto |].
  cbn [all_chars Str.lower Str.map Str.mem].
  intros H. apply andb_prop in H as [Hc Htok].
  destruct (IH Htok) as [Hlow Hmem].
  unfold normalized_char in Hc. apply andb_prop in Hc as [Hfix Hq].
  apply Ascii.eqb_eq in Hfix. apply negb_true_iff in Hq.
  split.
  - unfold Str.lower in Hlow. rewrite Hfix, Hlow. reflexivity.
  - rewrite Ascii.eqb_sym, Hq, Hmem. reflexivity.
Qed.




(** ** Cleaning the infobox text *)

Section CharRuns.

Variable c : ascii.
Variable R : Type.

Lemma rep_too_short (lo : nat) (s : string) (pos : nat)
    (k : string -> nat -> option R) :
  run_length c s < lo ->
  Re.rep Re.no_flags R (Re.Lit c) true lo None s pos k = None.
Proof.
  revert lo pos. induction s as [| d s IH]; intros lo pos Hlo.
  - simpl in Hlo. destruct lo; [lia | reflexivity].
  - cbn [Re.rep Re.atom_matches Re.same_char Re.IGNORECASE Re.no_flags].
    cbn [run_length] in Hlo.
    destruct (Ascii.eqb c d).
    + rewrite IH by (destruct lo; simpl; lia).
      destruct lo; [lia | reflexivity].
    + destruct lo; [lia | reflexivity].
Qed.

Lemma rep_takes_run (lo : nat) (s : string) (pos : nat) (g : nat -> R) :
  lo <= run_length c s ->
  Re.rep Re.no_flags R (Re.Lit c) true lo None s pos (fun _ e => Some (g e))
  = Some (g (run_length c s + pos)).
Proof.
  revert lo pos. induction s as [| d s IH]; intros lo pos Hlo.
  - simpl in Hlo. assert (lo = 0) as -> by lia. reflexivity.
  - cbn [Re.rep Re.atom_matches Re.same_char Re.IGNORECASE Re.no_flags].
    cbn [run_length] in *.
    destruct (Ascii.eqb c d).
    + rewrite IH by (destruct lo; simpl; lia).
      rewrite Nat.add_succ_r. reflexivity.
    + assert (lo = 0) as -> by lia. reflexivity.
Qed.

End CharRuns.

Section CleanText.

Variable c : ascii.

Lemma match_at_run (text s : string) (pos : nat) :
  Re.match_at false (run_pattern c) text s pos
  = match run_length c s with
    | O => None
    | S n =>
        Some {| Re.m_string := text; Re.m_start := pos;
                Re.m_end := S n + pos; Re.m_groups := [] |}
    end.
Proof.
  unfold Re.match_at, run_pattern, Re.compile, Re.plus.
  cbn [Re.p_regex Re.p_flags Re.run andb].
  destruct (run_length c s) as [| n] eqn:Hrun.
  - apply rep_too_short. lia.
  - rewrite (rep_takes_run c Re.Match 1 s pos
               (fun e => {| Re.m_string := text; Re.m_start := pos;
                            Re.m_end := e; Re.m_groups := [] |}))
      by lia.
    rewrite Hrun. reflexivity.
Qed.

Lemma sub_from_squeeze (text s : string) (pos : nat) :
  Re.sub_from (run_pattern c) (String c "") text s pos 0 = squeeze c false s
  /\ Re.sub_from (run_pattern c) (String c "") text s pos (run_length c s)
     = squeeze c true s.
Proof.
  revert pos. induction s as [| d s IH]; intros pos.
  - cbn [Re.sub_from run_length squeeze]. rewrite match_at_run.
    split; reflexivity.
  - assert (Hstart :
      Re.sub_from (run_pattern c) (String c "") text (String d s) pos 0
      = squeeze c false (String d s)).
    { cbn [Re.sub_from]. rewrite match_at_run.
      cbn [run_length squeeze]. rewrite (Ascii.eqb_sym d c).
      destruct (Ascii.eqb c d) eqn:Hcd.
      - cbn [Re.m_end].
        replace (S (run_length c s) + pos =? pos)%nat with false
          by (symmetry; apply Nat.eqb_neq; lia).
        replace (S (run_length c s) + pos - pos - 1) with (run_length c s)
          by lia.
        rewrite (proj2 (IH (S pos))). reflexivity.
      - rewrite (proj1 (IH (S pos))). reflexivity. }
    split; [exact Hstart |].
    cbn [run_length]. destruct (Ascii.eqb c d) eqn:Hcd.
    + cbn [Re.sub_from squeeze]. rewrite (Ascii.eqb_sym d c), Hcd.
      exact (proj2 (IH (S pos))).
    + rewrite Hstart. cbn [squeeze]. rewrite (Ascii.eqb_sym d c), Hcd.
      reflexivity.
Qed.

Lemma sub_collapses_runs (text : string) :
  Re.sub (Re.plus (Re.Lit c)) (String c "") text = collapse_runs c text.
Proof. exact (proj1 (sub_from_squeeze text text 0)). Qed.

(** Collapsing the runs of [c] brings no new neighbours together: what stands
    before a kept character is what stood before it. *)
Lemma squeeze_keeps_neighbours (a prev : ascii) (in_run : bool) (s : string) :
  (in_run = true -> prev = c) ->
  no_double_after a prev s = true ->
  no_double_after a prev (squeeze c in_run s) = true.
Proof.
  revert prev in_run. induction s as [| d s IH]; intros prev in_run Hrun Hs.
  - reflexivity.
  - cbn [no_double_after] in Hs. apply andb_prop in Hs as [Hhead Htail].
    cbn [squeeze]. destruct (Ascii.eqb_spec d c) as [-> | Hdc].
    + destruct in_run.
      * rewrite (Hrun eq_refl). apply IH; auto.
      * cbn [no_double_after]. rewrite Hhead. apply IH; auto.
    + cbn [no_double_after]. rewrite Hhead. apply IH; [discriminate | auto].
Qed.

Lemma squeeze_no_double (prev : ascii) (in_run : bool) (s : string) :
  (prev = c -> in_run = true) ->
  no_double_after c prev (squeeze c in_run s) = true.
Proof.
  revert prev in_run. induction s as [| d s IH]; intros prev in_run Hprev.
  - reflexivity.
  - cbn [squeeze]. destruct (Ascii.eqb_spec d c) as [-> | Hdc].
    + destruct in_run.
      * apply IH. auto.
      * cbn [no_double_after].
        destruct (Ascii.eqb_spec prev c) as [Heq | _];
          [specialize (Hprev Heq); discriminate |].
        apply IH. auto.
    + cbn [no_double_after].
      replace (Ascii.eqb d c) with false by (symmetry; apply Ascii.eqb_neq; auto).
      rewrite andb_false_r. apply IH. intros ->. contradiction.
Qed.

Lemma squeeze_all_chars (P : ascii -> bool) (in_run : bool) (s : string) :
  all_chars P s = true -> all_chars P (squeeze c in_run s) = true.
Proof.
  revert in_run. induction s as [| d s IH]; intros in_run Hs.
  - reflexivity.
  - cbn [all_chars] in Hs. apply andb_prop in Hs as [Hd Hs].
    cbn [squeeze]. destruct (Ascii.eqb_spec d c) as [<- | _].
    + destruct in_run; [| cbn [all_chars]; rewrite Hd]; apply IH; auto.
    + cbn [all_chars]. rewrite Hd. apply IH; auto.
Qed.

End CleanText.

Lemma no_double_after_any (c prev : ascii) (s : string) :
  no_double_after c prev s = true -> no_double c s = true.
Proof.
  destruct s as [| d s]; [reflexivity |].
  cbn [no_double_after no_double]. intros H.
  apply andb_prop in H as [_ H]. exact H.
Qed.

Lemma blank_unprintable_printable (text : string) :
  all_chars (fun ch => Str.mem ch Str.printable) (blank_unprintable text) = true.
Proof.
  unfold blank_unprintable.
  induction text as [| ch text IH]; [reflexivity |].
  cbn [Str.map all_chars]. rewrite IH, andb_true_r.
  destruct (Str.mem ch Str.printable) eqn:Hch; [exact Hch | reflexivity].
Qed.

Lemma clean_text_unfold (text : string) :
  clean_text text
  = collapse_runs Str.nl (collapse_runs " " (blank_unprintable text)).
Proof.
  unfold clean_text. fold (blank_unprintable text).
  rewrite !sub_collapses_runs. reflexivity.
Qed.

(** C7, as the program has it: [clean_text] puts a space in the place of
    every character outside [string.printable], then collapses every run of
    spaces into one space and then every run of newlines into one newline.
    It is a total function; its result has only printable characters, no two
    spaces in a row and no two newlines in a row. *)
Theorem clean_text_blanks_then_collapses (text : string) :
  clean_text text
  = collapse_runs Str.nl (collapse_runs " " (blank_unprintable text))
  /\ all_chars (fun ch => Str.mem ch Str.printable) (clean_text text) = true
  /\ no_double " " (clean_text text) = true
  /\ no_double Str.nl (clean_text text) = true.
Proof.
  rewrite clean_text_unfold. unfold collapse_runs.
  split; [reflexivity |]. split; [| split].
  - apply squeeze_all_chars, squeeze_all_chars, blank_unprintable_printable.
  - apply (no_double_after_any " " "x").
    apply squeeze_keeps_neighbours; [discriminate |].
    apply squeeze_no_double. discriminate.
  - apply (no_double_after_any Str.nl "x").
    apply squeeze_no_double. discriminate.
Qed.

(** C7 as stated fails: the e with an acute accent of "Quebec" is
    not removed, a space takes its place. *)
Lemma clean_text_does_not_remove :
  clean_text ("Qu" ++ String e_acute "bec") = "Qu bec"
  /\ clean_by_removal ("Qu" ++ String e_acute "bec") = "Qubec"
  /\ clean_text ("Qu" ++ String e_acute "bec")
     <> clean_by_removal ("Qu" ++ String e_acute "bec").
Proof.
  split; [vm_compute; reflexivity |].
  split; [vm_compute; reflexivity |].
  vm_compute. discriminate.
Qed.

(** ** The matcher moves forward and records spans it has passed *)

Section EngineFacts.

Variable fl : Re.flags.
Variable R : Type.




End EngineFacts.

(** ** Searching *)



Lemma search_from_spec (p : Re.Pattern) (text s : string) (pos : nat) :
  match Re.search_from p text s pos with
  | Some m =>
      exists i,
        i <= String.length s
        /\ Re.match_at false p text (suffix_at i s) (pos + i) = Some m
        /\ forall j, j < i ->
             Re.match_at false p text (suffix_at j s) (pos + j) = None
  | None =>
      forall i, i <= String.length s ->
        Re.match_at false p text (suffix_at i s) (pos + i) = None
  end.
Proof.
  revert pos. induction s as [| c s IH]; intros pos; cbn [Re.search_from].
  - destruct (Re.match_at false p text EmptyString pos) as [m |] eqn:Hhere.
    + exists 0. rewrite Nat.add_0_r. repeat split; auto; lia.
    + intros i Hi. cbn [String.length] in Hi.
      assert (i = 0) as -> by lia. rewrite Nat.add_0_r. exact Hhere.
  - destruct (Re.match_at false p text (String c s) pos) as [m |] eqn:Hhere.
    + exists 0. rewrite Nat.add_0_r. repeat split; auto; lia.
    + specialize (IH (S pos)).
      destruct (Re.search_from p text s (S pos)) as [m |].
      * destruct IH as (i & Hi & Hm & Hbefore).
        exists (S i). cbn [String.length suffix_at].
        rewrite Nat.add_succ_r. repeat split; auto; try lia.
        intros [| j] Hj.
        -- rewrite Nat.add_0_r. exact Hhere.
        -- cbn [suffix_at]. rewrite Nat.add_succ_r. apply Hbefore. lia.
      * intros [| i] Hi.
        -- rewrite Nat.add_0_r. exact Hhere.
        -- cbn [suffix_at String.length] in *. rewrite Nat.add_succ_r.
           apply IH. lia.
Qed.

Lemma lookup_In (name : string) (caps : Re.captures) (span : nat * nat) :
  Re.lookup name caps = Some span -> exists n, In (n, span) caps.
Proof.
  induction caps as [| [n sp] caps IH]; cbn [Re.lookup]; [discriminate |].
  destruct (String.eqb n name).
  - intros [= ->]. exists n. left. reflexivity.
  - intros H. destruct (IH H) as (n' & Hin). exists n'. right. exact Hin.
Qed.

(** ** The establishment year *)

Lemma substring_after_prefix (before s : string) (n len : nat) :
  substring (String.length before + n) len (before ++ s) = substring n len s.
Proof.
  induction before as [| c before IH]; [reflexivity |].
  cbn [String.length Nat.add append substring]. exact IH.
Qed.

Lemma match_at_wrong_first_char (adv : bool) (fl : Re.flags) (a c : ascii)
    (r1 r2 : Re.regex) (text s : string) (pos : nat) :
  Re.same_char fl a c = false ->
  Re.match_at adv (Re.compile (Re.Seq (Re.Seq (Re.Atom (Re.Lit a)) r1) r2) fl)
    text (String c s) pos = None.
Proof.
  intros Hac. unfold Re.match_at.
  cbn [Re.compile Re.p_regex Re.p_flags Re.run Re.atom_matches].
  rewrite Hac. reflexivity.
Qed.

Lemma suffix_at_app (before rest : string) :
  suffix_at (String.length before) (before ++ rest) = rest.
Proof. induction before as [| c before IH]; [reflexivity | exact IH]. Qed.

Lemma length_app (a b : string) :
  String.length (a ++ b) = String.length a + String.length b.
Proof.
  induction a as [| c a IH]; [reflexivity |].
  cbn [append String.length]. rewrite IH. reflexivity.
Qed.

Lemma match_at_established_block (text after : string) (pos : nat) :
  Re.match_at false (Re.compile establish_pattern DOTALL_IGNORECASE) text
    (established_block ++ after) pos
  = Some {| Re.m_string := text; Re.m_start := pos; Re.m_end := 17 + pos;
            Re.m_groups := [("time", (12 + pos, 16 + pos))] |}.
Proof. vm_compute. reflexivity. Qed.

(** C8, as the program has it: in a fact block that holds
    "Established\n1867; 158 years ago (1867)", and in which the pattern has
    no match that starts earlier, the establishment pattern matches at that
    text and its group [time] is "1867": the group stops before the first
    semicolon or opening parenthesis. *)
Theorem establishment_capture_is_the_year
    (before after error_text : string) :
  let text := before ++ established_block ++ after in
  (forall j, j < String.length before ->
     Re.match_at false (Re.compile establish_pattern DOTALL_IGNORECASE) text
       (suffix_at j text) j = None) ->
  exists m,
    get_match text establish_pattern error_text = ret m
    /\ Re.m_start m = String.length before
    /\ Re.group m "time" = Some "1867".
Proof.
  intros text Hearlier.
  set (n := String.length before).
  assert (Hhere :
    Re.match_at false (Re.compile establish_pattern DOTALL_IGNORECASE) text
      (suffix_at n text) n
    = Some {| Re.m_string := text; Re.m_start := n; Re.m_end := 17 + n;
              Re.m_groups := [("time", (12 + n, 16 + n))] |}).
  { unfold text, n. rewrite suffix_at_app.
    apply match_at_established_block. }
  assert (Hn : n <= String.length text).
  { unfold text, n. rewrite length_app. lia. }
  unfold get_match, Re.search.
  pose proof (search_from_spec
                (Re.compile establish_pattern DOTALL_IGNORECASE) text text 0)
    as Hspec.
  destruct (Re.search_from _ text text 0) as [m |]; cbn [Nat.add] in Hspec.
  - destruct Hspec as (i & Hi & Hm & Hbefore).
    assert (i = n) as ->.
    { destruct (Nat.lt_trichotomy i n) as [Hlt | [Heq | Hgt]].
      - rewrite (Hearlier i Hlt) in Hm. discriminate.
      - exact Heq.
      - rewrite (Hbefore n Hgt) in Hhere. discriminate. }
    rewrite Hhere in Hm. injection Hm as <-.
    eexists. split; [reflexivity |]. split; [reflexivity |].
    unfold Re.group.
    cbn [Re.m_groups Re.m_string Re.lookup String.eqb Ascii.eqb Bool.eqb].
    change (Some (substring (12 + n) (16 + n - (12 + n)) text) = Some "1867").
    replace (16 + n - (12 + n)) with 4 by lia.
    unfold text, n. rewrite (Nat.add_comm 12), substring_after_prefix.
    vm_compute. reflexivity.
  - rewrite (Hspec n Hn) in Hhere. discriminate.
Qed.

(** A text without the letter e has no match of the establishment pattern
    that starts in it. *)
Lemma no_establishment_match_without_e (text before rest : string) (j : nat) :
  all_chars (fun c => negb (Ascii.eqb (Str.lower_char c) "e")) before = true ->
  j < String.length before ->
  Re.match_at false (Re.compile establish_pattern DOTALL_IGNORECASE) text
    (suffix_at j (before ++ rest)) j = None.
Proof.
  intros Hno_e Hj.
  assert (Hhead : exists c s,
             suffix_at j (before ++ rest) = String c s
             /\ Ascii.eqb (Str.lower_char c) "e" = false).
  { revert j Hj. induction before as [| c before IH]; intros j Hj.
    - cbn [String.length] in Hj. lia.
    - cbn [all_chars] in Hno_e. apply andb_prop in Hno_e as [Hc Hrest].
      destruct j as [| j].
      + exists c, (before ++ rest). split; [reflexivity |].
        apply negb_true_iff. exact Hc.
      + cbn [String.length] in Hj. apply (IH Hrest j). lia. }
  destruct Hhead as (c & s & -> & Hc).
  change establish_pattern
    with (Re.Seq (Re.Seq (Re.Atom (Re.Lit "E")) (Re.lit "stablished"))
            (Re.seq
               [ Re.star (Re.Set_ false [Re.Chr Str.nl; Re.Cls Re.Space]);
                 Re.Group "time"
                   (Re.plus (Re.Set_ false
                      [Re.Cls Re.Digit; Re.Cls Re.Word; Re.Cls Re.Space;
                       Re.Chr ","]));
                 Re.plus (Re.Set_ false [Re.Chr ";"; Re.Chr "("]) ])).
  apply match_at_wrong_first_char.
  unfold Re.same_char. cbn [DOTALL_IGNORECASE Re.IGNORECASE].
  rewrite Ascii.eqb_sym. exact Hc.
Qed.

Lemma establishment_capture_is_the_year_witness :
  exists m,
    get_match ("..." ++ established_block ++ "...") establish_pattern
      default_error_text = ret m
    /\ Re.m_start m = 3
    /\ Re.group m "time" = Some "1867".
Proof.
  apply (establishment_capture_is_the_year "..." "..." default_error_text).
  intros j Hj. apply no_establishment_match_without_e; [reflexivity | exact Hj].
Defined.

(** C8 as stated fails: on that fact block the group [time] is "1867", neither "1867; 158 years ago " nor that text without
    its last space. *)
Lemma establishment_capture_stops_at_semicolon :
  exists m,
    get_match ("..." ++ established_block ++ "...") establish_pattern
      default_error_text = ret m
    /\ Re.group m "time" = Some "1867"
    /\ Re.group m "time" <> Some "1867; 158 years ago "
    /\ Re.group m "time" <> Some "1867; 158 years ago".
Proof.
  eexists. split; [vm_compute; reflexivity |].
  split; [vm_compute; reflexivity |].
  split; vm_compute; discriminate.
Qed.

(** * Further properties *)

(** ** [clean_text] on text that is already clean *)

Lemma clean_text_is_clean (text : string) :
  all_chars (fun ch => Str.mem ch Str.printable) (clean_text text) = true
  /\ no_double " " (clean_text text) = true
  /\ no_double Str.nl (clean_text text) = true.
Proof.
  rewrite clean_text_unfold. unfold collapse_runs. split; [| split].
  - apply squeeze_all_chars, squeeze_all_chars, blank_unprintable_printable.
  - apply (no_double_after_any " " "x").
    apply squeeze_keeps_neighbours; [discriminate |].
    apply squeeze_no_double. discriminate.
  - apply (no_double_after_any Str.nl "x").
    apply squeeze_no_double. discriminate.
Qed.

Lemma blank_unprintable_fixed (text : string) :
  all_chars (fun ch => Str.mem ch Str.printable) text = true ->
  blank_unprintable text = text.
Proof.
  unfold blank_unprintable.
  induction text as [| ch text IH]; [reflexivity |].
  cbn [all_chars Str.map]. intros H. apply andb_prop in H as [Hch Htext].
  rewrite Hch, (IH Htext). reflexivity.
Qed.

Lemma squeeze_fixed (c prev : ascii) (in_run : bool) (s : string) :
  (in_run = true -> prev = c) ->
  (prev = c -> in_run = true) ->
  no_double_after c prev s = true ->
  squeeze c in_run s = s.
Proof.
  revert prev in_run. induction s as [| d s IH]; intros prev in_run Hrun Hprev Hs.
  - reflexivity.
  - cbn [no_double_after] in Hs. apply andb_prop in Hs as [Hhead Htail].
    cbn [squeeze]. destruct (Ascii.eqb_spec d c) as [-> | Hdc].
    + rewrite andb_true_r in Hhead.
      apply negb_true_iff in Hhead. apply Ascii.eqb_neq in Hhead.
      destruct in_run; [elim Hhead; auto |].
      f_equal. apply (IH c true); auto.
    + f_equal. apply (IH d false); [discriminate | | exact Htail].
      intros Heq. contradiction.
Qed.

Lemma collapse_runs_fixed (c : ascii) (s : string) :
  no_double c s = true -> collapse_runs c s = s.
Proof.
  unfold collapse_runs. destruct s as [| d s]; [reflexivity |].
  cbn [no_double squeeze]. intros Hs.
  destruct (Ascii.eqb_spec d c) as [-> | Hdc].
  - f_equal. apply (squeeze_fixed c c true); auto.
  - f_equal. apply (squeeze_fixed c d false); [discriminate | | exact Hs].
    intros Heq. contradiction.
Qed.

(** X1: the texts that [clean_text] leaves as they are are exactly the texts
    of printable characters with no two spaces and no two newlines in a
    row. *)
Theorem clean_text_fixed_points (text : string) :
  clean_text text = text
  <-> all_chars (fun ch => Str.mem ch Str.printable) text = true
      /\ no_double " " text = true
      /\ no_double Str.nl text = true.
Proof.
  split.
  - intros Hfix. rewrite <- Hfix. apply clean_text_is_clean.
  - intros (Hprintable & Hspaces & Hnewlines).
    rewrite clean_text_unfold, (blank_unprintable_fixed text Hprintable).
    rewrite (collapse_runs_fixed " " text Hspaces).
    exact (collapse_runs_fixed Str.nl text Hnewlines).
Qed.

Lemma clean_text_fixed_points_witness :
  clean_text ("Population (2021)" ++ String Str.nl "Total8,501,833")
  = "Population (2021)" ++ String Str.nl "Total8,501,833".
Proof.
  apply (proj2 (clean_text_fixed_points
                  ("Population (2021)" ++ String Str.nl "Total8,501,833"))).
  repeat split; vm_compute; reflexivity.
Defined.

(** X2: cleaning twice is cleaning once. *)
Theorem clean_text_idempotent (text : string) :
  clean_text (clean_text text) = clean_text text.
Proof.
  apply clean_text_fixed_points. apply clean_text_is_clean.
Qed.

Lemma map_length (f : ascii -> ascii) (s : string) :
  String.length (Str.map f s) = String.length s.
Proof.
  induction s as [| c s IH]; [reflexivity |].
  cbn [Str.map String.length]. rewrite IH. reflexivity.
Qed.

Lemma squeeze_length (c : ascii) (in_run : bool) (s : string) :
  String.length (squeeze c in_run s) <= String.length s.
Proof.
  revert in_run. induction s as [| d s IH]; intros in_run; [reflexivity |].
  cbn [squeeze]. destruct (Ascii.eqb d c); [destruct in_run |];
    cbn [String.length].
  - specialize (IH true). lia.
  - specialize (IH true). lia.
  - specialize (IH false). lia.
Qed.

(** X3: [clean_text] never makes a text longer. *)
Theorem clean_text_length (text : string) :
  String.length (clean_text text) <= String.length text.
Proof.
  rewrite clean_text_unfold. unfold collapse_runs, blank_unprintable.
  etransitivity; [apply squeeze_length |].
  etransitivity; [apply squeeze_length |].
  rewrite map_length. reflexivity.
Qed.

(** ** What a match says about the text *)

Lemma append_assoc (a b c : string) : (a ++ b) ++ c = a ++ (b ++ c).
Proof.
  induction a as [| x a IH]; [reflexivity |].
  cbn [append]. rewrite IH. reflexivity.
Qed.

Lemma append_empty_r (a : string) : a ++ "" = a.
Proof.
  induction a as [| x a IH]; [reflexivity |].
  cbn [append]. rewrite IH. reflexivity.
Qed.

Lemma substring_prefix (w rest : string) :
  substring 0 (String.length w) (w ++ rest) = w.
Proof.
  induction w as [| x w IH]; cbn [String.length append substring].
  - destruct rest; reflexivity.
  - rewrite IH. reflexivity.
Qed.

Lemma suffix_at_split (pos : nat) (text w rest : string) :
  suffix_at pos text = w ++ rest ->
  suffix_at (pos + String.length w) text = rest
  /\ substring pos (String.length w) text = w
  /\ exists before, text = before ++ w ++ rest.
Proof.
  revert text. induction pos as [| pos IH]; intros text Hsuffix.
  - cbn [suffix_at Nat.add] in *. subst text.
    split; [apply suffix_at_app |]. split; [apply substring_prefix |].
    exists "". reflexivity.
  - destruct text as [| x text]; cbn [suffix_at] in Hsuffix.
    + destruct w; [| discriminate]. cbn [append] in Hsuffix. subst rest.
      split; [reflexivity |]. split; [reflexivity |]. exists "". reflexivity.
    + destruct (IH text Hsuffix) as (Hrest & Hsub & before & Htext).
      split; [exact Hrest |]. split; [exact Hsub |].
      exists (String x before). cbn [append]. rewrite <- Htext. reflexivity.
Qed.

Section Soundness.

Variable fl : Re.flags.
Variable R : Type.

Lemma rep_sound (a : Re.atom) (greedy : bool) (lo : nat) (hi : option nat)
    (s : string) (pos : nat) (k : string -> nat -> option R) (x : R) :
  Re.rep fl R a greedy lo hi s pos k = Some x ->
  exists w rest,
    s = w ++ rest
    /\ lang fl (Re.Rep a lo hi greedy) w
    /\ k rest (pos + String.length w) = Some x.
Proof.
  revert lo hi pos.
  induction s as [| c s IH]; intros lo hi pos Hrun.
  - assert (Hstop : match lo with O => k EmptyString pos | S _ => None end
                    = Some x).
    { cbn [Re.rep] in Hrun.
      destruct greedy, hi as [[| h] |], lo; try discriminate; auto;
        destruct (k EmptyString pos); congruence. }
    destruct lo; [| discriminate].
    exists "", "". rewrite Nat.add_0_r. cbn [lang all_chars String.length].
    repeat split; auto. destruct hi; [lia | exact I].
  - cbn [Re.rep] in Hrun.
    set (stop := match lo with O => k (String c s) pos | S _ => None end) in *.
    set (more := match hi with
                 | Some O => None
                 | _ => if Re.atom_matches fl a c
                        then Re.rep fl R a greedy (pred lo)
                               (option_map pred hi) s (S pos) k
                        else None
                 end) in *.
    assert (Hcases : stop = Some x \/ more = Some x).
    { destruct greedy.
      - destruct more; [right; exact Hrun | left; exact Hrun].
      - destruct stop; [left; exact Hrun | right; exact Hrun]. }
    destruct Hcases as [Hstop | Hmore].
    + subst stop. destruct lo; [| discriminate].
      exists "", (String c s). rewrite Nat.add_0_r.
      cbn [lang all_chars String.length].
      repeat split; auto. destruct hi; [lia | exact I].
    + subst more.
      assert (Hrec : Re.atom_matches fl a c = true
                     /\ hi <> Some 0
                     /\ Re.rep fl R a greedy (pred lo) (option_map pred hi)
                          s (S pos) k = Some x).
      { destruct hi as [[| h] |]; [discriminate | |];
          destruct (Re.atom_matches fl a c); try discriminate;
          repeat split; auto; discriminate. }
      destruct Hrec as (Hc & Hhi & Hrec).
      destruct (IH _ _ _ Hrec) as (w & rest & -> & (Hall & Hlo & Hbound) & Hk).
      exists (String c w), rest.
      cbn [lang all_chars String.length append].
      rewrite Hc, Hall, Nat.add_succ_r. repeat split; auto; try lia.
      destruct hi as [[| h] |]; cbn [option_map pred] in Hbound;
        [congruence | lia | exact I].
Qed.

Variable text : string.
Variable G : list (string * Re.regex).

Lemma run_sound (r : Re.regex) (s : string) (pos : nat)
    (caps : Re.captures) (k : string -> nat -> Re.captures -> option R)
    (x : R) :
  incl (groups_of r) G ->
  suffix_at pos text = s ->
  spans_sound fl text G caps ->
  Re.run fl R r s pos caps k = Some x ->
  exists w rest caps',
    s = w ++ rest
    /\ lang fl r w
    /\ spans_sound fl text G caps'
    /\ (forall name,
          In name (mandatory r) \/ Re.lookup name caps <> None ->
          Re.lookup name caps' <> None)
    /\ k rest (pos + String.length w) caps' = Some x.
Proof.
  revert s pos caps k.
  induction r as [| a | a lo hi greedy | r1 IH1 | r1 IH1 r2 IH2 | name r1 IH1];
    intros s pos caps k Hincl Hsuffix Hcaps Hrun; cbn [Re.run] in Hrun.
  - exists "", s, caps. rewrite Nat.add_0_r.
    refine (conj eq_refl (conj eq_refl (conj Hcaps (conj _ Hrun)))).
    intros n [[] | Hn]; exact Hn.
  - destruct s as [| c s]; [discriminate |].
    destruct (Re.atom_matches fl a c) eqn:Hc; [| discriminate].
    exists (String c ""), s, caps. cbn [String.length].
    rewrite Nat.add_1_r.
    refine (conj eq_refl (conj _ (conj Hcaps (conj _ Hrun)))).
    + exists c. auto.
    + intros n [[] | Hn]; exact Hn.
  - apply rep_sound in Hrun as (w & rest & -> & Hlang & Hk).
    exists w, rest, caps.
    refine (conj eq_refl (conj Hlang (conj Hcaps (conj _ Hk)))).
    intros n [[] | Hn]; exact Hn.
  - destruct (Re.run fl R r1 s pos caps k) as [y |] eqn:Hr1.
    + injection Hrun as ->.
      destruct (IH1 _ _ _ _ Hincl Hsuffix Hcaps Hr1)
        as (w & rest & caps' & -> & Hlang & Hcaps' & Hnames & Hk).
      exists w, rest, caps'.
      refine (conj eq_refl (conj (or_intror Hlang) (conj Hcaps' (conj _ Hk)))).
      intros n [[] | Hn]; apply Hnames; right; exact Hn.
    + exists "", s, caps. rewrite Nat.add_0_r.
      refine (conj eq_refl (conj (or_introl eq_refl)
                (conj Hcaps (conj _ Hrun)))).
      intros n [[] | Hn]; exact Hn.
  - cbn [groups_of] in Hincl. apply incl_app_inv in Hincl as [Hincl1 Hincl2].
    destruct (IH1 _ _ _ _ Hincl1 Hsuffix Hcaps Hrun)
      as (w1 & s1 & caps1 & -> & Hlang1 & Hcaps1 & Hnames1 & Hrun2).
    destruct (suffix_at_split _ _ _ _ Hsuffix) as (Hsuffix1 & _ & _).
    destruct (IH2 _ _ _ _ Hincl2 Hsuffix1 Hcaps1 Hrun2)
      as (w2 & s2 & caps2 & -> & Hlang2 & Hcaps2 & Hnames2 & Hk).
    exists (w1 ++ w2), s2, caps2.
    rewrite length_app, Nat.add_assoc.
    refine (conj (eq_sym (append_assoc _ _ _))
              (conj _ (conj Hcaps2 (conj _ Hk)))).
    + exists w1, w2. auto.
    + cbn [mandatory]. intros n [Hn | Hn].
      * apply in_app_or in Hn as [Hn | Hn].
        -- apply Hnames2. right. apply Hnames1. left. exact Hn.
        -- apply Hnames2. left. exact Hn.
      * apply Hnames2. right. apply Hnames1. right. exact Hn.
  - cbn [groups_of] in Hincl.
    assert (Hincl1 : incl (groups_of r1) G).
    { intros g Hg. apply Hincl. right. exact Hg. }
    destruct (IH1 _ _ _ _ Hincl1 Hsuffix Hcaps Hrun)
      as (w & rest & caps1 & -> & Hlang & Hcaps1 & Hnames & Hk).
    destruct (suffix_at_split _ _ _ _ Hsuffix) as (_ & Hsub & before & Htext).
    exists w, rest, ((name, (pos, pos + String.length w)) :: caps1).
    refine (conj eq_refl (conj Hlang (conj _ (conj _ Hk)))).
    + constructor; [| exact Hcaps1]. cbn [fst snd].
      replace (pos + String.length w - pos) with (String.length w) by lia.
      rewrite Hsub. exists r1.
      refine (conj _ (conj Hlang _)).
      * apply Hincl. left. reflexivity.
      * exists before, rest. exact Htext.
    + intros n Hn. cbn [Re.lookup].
      destruct (String.eqb_spec name n) as [<- | Hneq]; [discriminate |].
      apply Hnames. cbn [mandatory] in Hn.
      destruct Hn as [[Hn | Hn] | Hn]; auto; contradiction.
Qed.

End Soundness.

Lemma lookup_In_name (name : string) (caps : Re.captures) (span : nat * nat) :
  Re.lookup name caps = Some span -> In (name, span) caps.
Proof.
  induction caps as [| [n sp] caps IH]; cbn [Re.lookup]; [discriminate |].
  destruct (String.eqb_spec n name) as [-> | _].
  - intros [= ->]. left. reflexivity.
  - intros H. right. exact (IH H).
Qed.

Lemma get_match_groups_sound (text : string) (pattern : Re.regex)
    (error_text : string) (out : list event) (m : Re.Match) :
  get_match text pattern error_text = (out, Ret m) ->
  out = []
  /\ Re.m_string m = text
  /\ spans_sound DOTALL_IGNORECASE text (groups_of pattern) (Re.m_groups m)
  /\ forall name, In name (mandatory pattern) ->
       Re.lookup name (Re.m_groups m) <> None.
Proof.
  unfold get_match, Re.search.
  pose proof (search_from_spec (Re.compile pattern DOTALL_IGNORECASE)
                text text 0) as Hspec.
  destruct (Re.search_from _ text text 0) as [m' |]; [| discriminate].
  intros [= <- ->]. destruct Hspec as (i & _ & Hm & _).
  cbn [Nat.add] in Hm. unfold Re.match_at in Hm.
  cbn [Re.compile Re.p_regex Re.p_flags] in Hm.
  apply (run_sound DOTALL_IGNORECASE Re.Match text (groups_of pattern)) in Hm;
    [| apply incl_refl | reflexivity | constructor].
  destruct Hm as (w & rest & caps & _ & _ & Hcaps & Hnames & Hk).
  cbn [andb] in Hk. injection Hk as <-.
  cbn [Re.m_string Re.m_groups].
  refine (conj eq_refl (conj eq_refl (conj Hcaps _))).
  intros name Hname. apply Hnames. left. exact Hname.
Qed.

Lemma named_group_found (text : string) (pattern : Re.regex)
    (error_text name : string) (out : list event) (m : Re.Match) :
  get_match text pattern error_text = (out, Ret m) ->
  In name (mandatory pattern) ->
  exists v r1,
    group m name = ret v
    /\ In (name, r1) (groups_of pattern)
    /\ lang DOTALL_IGNORECASE r1 v
    /\ occurs_in v text.
Proof.
  intros Hm Hname.
  destruct (get_match_groups_sound _ _ _ _ _ Hm) as (_ & Hstr & Hcaps & Hnames).
  specialize (Hnames name Hname).
  destruct (Re.lookup name (Re.m_groups m)) as [[b e] |] eqn:Hlookup;
    [| contradiction].
  pose proof (lookup_In_name _ _ _ Hlookup) as Hin.
  unfold spans_sound in Hcaps. rewrite Forall_forall in Hcaps.
  destruct (Hcaps _ Hin) as (r1 & Hg & Hlang & Hocc). cbn [fst snd] in *.
  exists (substring b (e - b) text), r1.
  unfold group, Re.group. rewrite Hlookup, Hstr. auto.
Qed.

(** *** The matcher finds a word of the pattern wherever one starts *)

Section Completeness.

Variable fl : Re.flags.
Variable R : Type.



End Completeness.







(** X4: in every match that [get_match] returns, a named group that does not
    stand under a [?] has taken part: [group] finds it, the text it holds is
    a word of the group's own pattern, and that text stands in the text
    searched. *)
Theorem mandatory_group_is_captured (text : string) (pattern : Re.regex)
    (error_text name : string) (out : list event) (m : Re.Match) :
  get_match text pattern error_text = (out, Ret m) ->
  In name (mandatory pattern) ->
  exists v r1,
    group m name = ret v
    /\ In (name, r1) (groups_of pattern)
    /\ lang DOTALL_IGNORECASE r1 v
    /\ occurs_in v text.
Proof. exact (named_group_found text pattern error_text name out m). Qed.

Lemma mandatory_group_is_captured_witness :
  exists v r1,
    group {| Re.m_string := "Born 1815-12-10"; Re.m_start := 0;
             Re.m_end := 15; Re.m_groups := [("birth", (5, 15))] |} "birth"
    = ret v
    /\ In ("birth", r1) (groups_of birth_pattern)
    /\ lang DOTALL_IGNORECASE r1 v
    /\ occurs_in v "Born 1815-12-10".
Proof.
  apply (mandatory_group_is_captured "Born 1815-12-10" birth_pattern
           default_error_text "birth" []).
  - vm_compute. reflexivity.
  - left. reflexivity.
Defined.

(** The two steps after the infobox text is at hand, which every [get_...]
    function takes: search, then read the group. *)
Lemma extraction_outcome (text : string) (pattern : Re.regex)
    (error_text name : string) (f : string -> string) :
  In name (mandatory pattern) ->
  (m <- get_match text pattern error_text ;;
   v <- group m name ;;
   ret (f v))
  = ([], Raise (AttributeError error_text))
  \/ exists v r1,
       (m <- get_match text pattern error_text ;;
        v <- group m name ;;
        ret (f v))
       = ([], Ret (f v))
       /\ In (name, r1) (groups_of pattern)
       /\ lang DOTALL_IGNORECASE r1 v
       /\ occurs_in v text.
Proof.
  intros Hname.
  destruct (get_match text pattern error_text) as [out [m | e]] eqn:Hm.
  - right.
    destruct (named_group_found text pattern error_text name out m Hm Hname)
      as (v & r1 & Hgroup & Hg & Hlang & Hocc).
    exists v, r1.
    destruct (get_match_groups_sound _ _ _ _ _ Hm) as (-> & _).
    change (@pair (list event) (outcome Re.Match) [] (Ret m)) with (ret m).
    rewrite bind_ret_l, Hgroup, bind_ret_l. auto.
  - left. unfold get_match in Hm.
    destruct (Re.search _ text); [discriminate |].
    injection Hm as <- <-. reflexivity.
Qed.

(** ** The way to the infobox text *)

Lemma infobox_of_cases (W : World) (subject : string) :
  infobox_of W subject
  = match wikipedia_search W subject with
    | Raise e => ([], Raise e)
    | Ret [] => ([], Raise (IndexError "list index out of range"))
    | Ret (top :: _) =>
        match WikipediaPage_html W top with
        | Raise e => ([], Raise e)
        | Ret html =>
            match find_all_infobox W html with
            | [] => ([], Raise (LookupError "Page has no infobox"))
            | box :: _ => ([], Ret (clean_text box))
            end
        end
    end.
Proof.
  unfold infobox_of, get_page_html, get_first_infobox_text, lift, first.
  destruct (wikipedia_search W subject) as [[| top others] | e];
    [reflexivity | | reflexivity].
  cbn [bind ret app].
  destruct (WikipediaPage_html W top) as [html | e]; [| reflexivity].
  cbn [bind ret app].
  destruct (find_all_infobox W html) as [| box boxes]; reflexivity.
Qed.

Lemma infobox_of_silent (W : World) (subject : string) :
  fst (infobox_of W subject) = [].
Proof.
  rewrite infobox_of_cases.
  destruct (wikipedia_search W subject) as [[| top others] | e];
    try reflexivity.
  destruct (WikipediaPage_html W top) as [html | e]; try reflexivity.
  destruct (find_all_infobox W html); reflexivity.
Qed.

(** ** The sentences of the five extractors *)

Lemma all_chars_ext (P Q : ascii -> bool) (s : string) :
  (forall c, P c = Q c) -> all_chars P s = all_chars Q s.
Proof.
  intros Hext. induction s as [| c s IH]; [reflexivity |].
  cbn [all_chars]. rewrite Hext, IH. reflexivity.
Qed.

Lemma plus_word (fl : Re.flags) (a : Re.atom) (v : string) :
  lang fl (Re.plus a) v ->
  v <> "" /\ all_chars (Re.atom_matches fl a) v = true.
Proof.
  cbn [lang Re.plus]. intros (Hall & Hlen & _). split; [| exact Hall].
  intros ->. cbn [String.length] in Hlen. lia.
Qed.

Lemma digit_or_comma (c : ascii) :
  Re.atom_matches DOTALL_IGNORECASE
    (Re.Set_ false [Re.Cls Re.Digit; Re.Chr ","]) c
  = Str.mem c "0123456789,".
Proof. destruct c as [[] [] [] [] [] [] [] []]; vm_compute; reflexivity. Qed.

Lemma digit_comma_or_dot (c : ascii) :
  Re.atom_matches DOTALL_IGNORECASE
    (Re.Set_ false [Re.Cls Re.Digit; Re.Chr ","; Re.Chr "."]) c
  = Str.mem c "0123456789,.".
Proof. destruct c as [[] [] [] [] [] [] [] []]; vm_compute; reflexivity. Qed.

Lemma digit_only (c : ascii) :
  Re.atom_matches DOTALL_IGNORECASE (Re.Esc false Re.Digit) c
  = Str.mem c Str.digits.
Proof. destruct c as [[] [] [] [] [] [] [] []]; vm_compute; reflexivity. Qed.

Lemma dash_only (c : ascii) :
  Re.atom_matches DOTALL_IGNORECASE (Re.Lit "-") c = true -> c = "-"%char.
Proof.
  destruct c as [[] [] [] [] [] [] [] []]; vm_compute;
    intros H; try discriminate H; reflexivity.
Qed.

Lemma time_char (c : ascii) :
  Re.atom_matches DOTALL_IGNORECASE
    (Re.Set_ false [Re.Cls Re.Digit; Re.Cls Re.Word; Re.Cls Re.Space;
                    Re.Chr ","]) c
  = (Re.in_category Re.Word c || Re.in_category Re.Space c
     || Ascii.eqb c ",").
Proof. destruct c as [[] [] [] [] [] [] [] []]; vm_compute; reflexivity. Qed.

(** X6: [get_population_size] fails exactly as getting the infobox text
    fails, and then writes nothing; otherwise it writes the infobox text and
    either raises [AttributeError] with its own message or returns
    "<place> has a population of <number>", where the number is a non-empty
    run of digits and commas that stands in the infobox text. *)
Theorem get_population_size_outcomes (W : World) (place : string) :
  match infobox_of W place with
  | (_, Raise e) => get_population_size W place = ([], Raise e)
  | (_, Ret text) =>
      get_population_size W place
      = ([Print text],
         Raise (AttributeError "Page infobox has no population information"))
      \/ exists population,
           get_population_size W place
           = ([Print text],
              Ret (place ++ " has a population of " ++ population))
           /\ population <> ""
           /\ all_chars (fun c => Str.mem c "0123456789,") population = true
           /\ occurs_in population text
  end.
Proof.
  unfold get_population_size.
  pose proof (infobox_of_silent W place) as Hsilent.
  destruct (infobox_of W place) as [out [text | e]]; cbn [fst] in Hsilent;
    subst out; [| reflexivity].
  change (@pair (list event) (outcome string) [] (Ret text)) with (ret text).
  rewrite bind_ret_l.
  destruct (extraction_outcome text population_pattern
              "Page infobox has no population information" "Population"
              (fun v => place ++ " has a population of " ++ v))
    as [Hfail | (v & r1 & Hok & Hg & Hlang & Hocc)].
  - vm_compute. auto.
  - left. rewrite Hfail. reflexivity.
  - right. exists v. rewrite Hok.
    split; [reflexivity |].
    vm_compute in Hg. destruct Hg as [[= <-] | []].
    apply plus_word in Hlang as [Hne Hall].
    rewrite (all_chars_ext _ _ v digit_or_comma) in Hall. auto.
Qed.

(** X7: [get_ugrad_pop] fails exactly as getting the infobox text fails, and
    then writes nothing; otherwise it writes the infobox text and either
    raises [AttributeError] with its own message or returns
    "<school> has an undergraduate population of <number>", where the number
    is a non-empty run of digits and commas that stands in the infobox
    text. *)
Theorem get_ugrad_pop_outcomes (W : World) (school : string) :
  match infobox_of W school with
  | (_, Raise e) => get_ugrad_pop W school = ([], Raise e)
  | (_, Ret text) =>
      get_ugrad_pop W school
      = ([Print text],
         Raise (AttributeError
                  "Page infobox has no information on undergraduate population"))
      \/ exists ugrad,
           get_ugrad_pop W school
           = ([Print text],
              Ret (school ++ " has an undergraduate population of " ++ ugrad))
           /\ ugrad <> ""
           /\ all_chars (fun c => Str.mem c "0123456789,") ugrad = true
           /\ occurs_in ugrad text
  end.
Proof.
  unfold get_ugrad_pop.
  pose proof (infobox_of_silent W school) as Hsilent.
  destruct (infobox_of W school) as [out [text | e]]; cbn [fst] in Hsilent;
    subst out; [| reflexivity].
  change (@pair (list event) (outcome string) [] (Ret text)) with (ret text).
  rewrite bind_ret_l.
  destruct (extraction_outcome text ugrad_pattern
              "Page infobox has no information on undergraduate population"
              "Ugrad"
              (fun v => school ++ " has an undergraduate population of " ++ v))
    as [Hfail | (v & r1 & Hok & Hg & Hlang & Hocc)].
  - vm_compute. auto.
  - left. rewrite Hfail. reflexivity.
  - right. exists v. rewrite Hok.
    split; [reflexivity |].
    vm_compute in Hg. destruct Hg as [[= <-] | []].
    apply plus_word in Hlang as [Hne Hall].
    rewrite (all_chars_ext _ _ v digit_or_comma) in Hall. auto.
Qed.

(** X8: [get_polar_radius] writes nothing.  It fails as getting the infobox
    text fails or raises [AttributeError] with its own message; otherwise it
    returns "the polar radius of <planet> is <number> km", where the number
    is a non-empty run of digits, commas and dots that stands in the infobox
    text. *)
Theorem get_polar_radius_outcomes (W : World) (planet_name : string) :
  match infobox_of W planet_name with
  | (_, Raise e) => get_polar_radius W planet_name = ([], Raise e)
  | (_, Ret text) =>
      get_polar_radius W planet_name
      = ([], Raise (AttributeError
                      "Page infobox has no polar radius information"))
      \/ exists radius,
           get_polar_radius W planet_name
           = ([], Ret ("the polar radius of " ++ planet_name ++ " is "
                         ++ radius ++ " km"))
           /\ radius <> ""
           /\ all_chars (fun c => Str.mem c "0123456789,.") radius = true
           /\ occurs_in radius text
  end.
Proof.
  unfold get_polar_radius.
  pose proof (infobox_of_silent W planet_name) as Hsilent.
  destruct (infobox_of W planet_name) as [out [text | e]];
    cbn [fst] in Hsilent; subst out; [| reflexivity].
  change (@pair (list event) (outcome string) [] (Ret text)) with (ret text).
  rewrite bind_ret_l.
  destruct (extraction_outcome text polar_radius_pattern
              "Page infobox has no polar radius information" "radius"
              (fun v => "the polar radius of " ++ planet_name ++ " is "
                          ++ v ++ " km"))
    as [Hfail | (v & r1 & Hok & Hg & Hlang & Hocc)].
  - vm_compute. auto.
  - left. exact Hfail.
  - right. exists v. split; [exact Hok |].
    vm_compute in Hg. destruct Hg as [[= <-] | []].
    apply plus_word in Hlang as [Hne Hall].
    rewrite (all_chars_ext _ _ v digit_comma_or_dot) in Hall. auto.
Qed.

(** X9: [get_establish_year] fails exactly as getting the infobox text
    fails, and then writes nothing; otherwise it writes the infobox text and
    either raises [AttributeError] with its own message or returns
    "<thing> was established in <time>", where the time is a non-empty run
    of word characters, white space and commas (so it holds no semicolon and
    no parenthesis) that stands in the infobox text. *)
Theorem get_establish_year_outcomes (W : World) (thing : string) :
  match infobox_of W thing with
  | (_, Raise e) => get_establish_year W thing = ([], Raise e)
  | (_, Ret text) =>
      get_establish_year W thing
      = ([Print text],
         Raise (AttributeError
                  "Page infobox has no establishment information (at least not in the 'established' format)"))
      \/ exists time,
           get_establish_year W thing
           = ([Print text], Ret (thing ++ " was established in " ++ time))
           /\ time <> ""
           /\ all_chars (fun c => Re.in_category Re.Word c
                                  || Re.in_category Re.Space c
                                  || Ascii.eqb c ",") time = true
           /\ Str.mem ";" time = false
           /\ Str.mem "(" time = false
           /\ occurs_in time text
  end.
Proof.
  unfold get_establish_year.
  pose proof (infobox_of_silent W thing) as Hsilent.
  destruct (infobox_of W thing) as [out [text | e]]; cbn [fst] in Hsilent;
    subst out; [| reflexivity].
  change (@pair (list event) (outcome string) [] (Ret text)) with (ret text).
  rewrite bind_ret_l.
  destruct (extraction_outcome text establish_pattern
              "Page infobox has no establishment information (at least not in the 'established' format)"
              "time"
              (fun v => thing ++ " was established in " ++ v))
    as [Hfail | (v & r1 & Hok & Hg & Hlang & Hocc)].
  - vm_compute. auto.
  - left. rewrite Hfail. reflexivity.
  - right. exists v. rewrite Hok.
    split; [reflexivity |].
    vm_compute in Hg. destruct Hg as [[= <-] | []].
    apply plus_word in Hlang as [Hne Hall].
    rewrite (all_chars_ext _ _ v time_char) in Hall.
    repeat split; auto.
    + clear - Hall. induction v as [| c v IH]; [reflexivity |].
      cbn [all_chars] in Hall. apply andb_prop in Hall as [Hc Hv].
      cbn [Str.mem]. rewrite (IH Hv), orb_false_r.
      destruct (Ascii.eqb_spec ";"%char c) as [<- | _];
        [vm_compute in Hc; discriminate | reflexivity].
    + clear - Hall. induction v as [| c v IH]; [reflexivity |].
      cbn [all_chars] in Hall. apply andb_prop in Hall as [Hc Hv].
      cbn [Str.mem]. rewrite (IH Hv), orb_false_r.
      destruct (Ascii.eqb_spec "("%char c) as [<- | _];
        [vm_compute in Hc; discriminate | reflexivity].
Qed.

(** X10: [get_birth_date] writes nothing.  It fails as getting the infobox
    text fails or raises [AttributeError] with its own message; otherwise it
    returns "<name> was born on this date: <date>", where the date stands in
    the infobox text and is four digits, a dash, two digits, a dash and two
    digits. *)
Theorem get_birth_date_outcomes (W : World) (name : string) :
  match infobox_of W name with
  | (_, Raise e) => get_birth_date W name = ([], Raise e)
  | (_, Ret text) =>
      get_birth_date W name
      = ([], Raise (AttributeError
                      "Page infobox has no birth information (at least none in xxxx-xx-xx format)"))
      \/ exists year month day,
           get_birth_date W name
           = ([], Ret (name ++ " was born on this date: "
                         ++ year ++ "-" ++ month ++ "-" ++ day))
           /\ String.length year = 4
           /\ String.length month = 2
           /\ String.length day = 2
           /\ all_chars (fun c => Str.mem c Str.digits)
                (year ++ month ++ day) = true
           /\ occurs_in (year ++ "-" ++ month ++ "-" ++ day) text
  end.
Proof.
  unfold get_birth_date.
  pose proof (infobox_of_silent W name) as Hsilent.
  destruct (infobox_of W name) as [out [text | e]];
    cbn [fst] in Hsilent; subst out; [| reflexivity].
  change (@pair (list event) (outcome string) [] (Ret text)) with (ret text).
  rewrite bind_ret_l.
  destruct (extraction_outcome text birth_pattern
              "Page infobox has no birth information (at least none in xxxx-xx-xx format)"
              "birth"
              (fun v => name ++ " was born on this date: " ++ v))
    as [Hfail | (v & r1 & Hok & Hg & Hlang & Hocc)].
  - vm_compute. auto.
  - left. exact Hfail.
  - right.
    vm_compute in Hg. destruct Hg as [[= <-] | []].
    cbn [lang] in Hlang.
    destruct Hlang as (year & w2 & -> & (Hyear & Hy4 & Hy4') & Hlang).
    destruct Hlang as (d1 & w3 & -> & (c1 & -> & Hc1) & Hlang).
    destruct Hlang as (month & w4 & -> & (Hmonth & Hm2 & Hm2') & Hlang).
    destruct Hlang as (d2 & w5 & -> & (c2 & -> & Hc2) & Hlang).
    destruct Hlang as (day & w6 & -> & (Hday & Hd2 & Hd2') & ->).
    apply dash_only in Hc1, Hc2. subst c1 c2.
    rewrite append_empty_r in Hok, Hocc.
    exists year, month, day.
    split; [exact Hok |].
    split; [lia |]. split; [lia |]. split; [lia |].
    split; [| exact Hocc].
    rewrite (all_chars_ext _ _ year digit_only) in Hyear.
    rewrite (all_chars_ext _ _ month digit_only) in Hmonth.
    rewrite (all_chars_ext _ _ day digit_only) in Hday.
    clear - Hyear Hmonth Hday.
    assert (Happ : forall a b,
               all_chars (fun c => Str.mem c Str.digits) a = true ->
               all_chars (fun c => Str.mem c Str.digits) b = true ->
               all_chars (fun c => Str.mem c Str.digits) (a ++ b) = true).
    { intros a b Ha Hb. induction a as [| x a IH]; [exact Hb |].
      cbn [all_chars append] in *. apply andb_prop in Ha as [Hx Ha].
      rewrite Hx, (IH Ha). reflexivity. }
    auto.
Qed.

(** ** What the dispatcher returns *)

Lemma search_rules_answer (rules : list (Pattern * Action))
    (src : list string) (out : list event) (answers : list string) :
  search_rules rules src = (out, Ret answers) ->
  (out = [] /\ answers = ["I don't understand"])
  \/ exists pat act mat answer,
       In (pat, act) rules
       /\ match_ pat src = Some mat
       /\ act mat = (out, Ret answer)
       /\ answers = or_no_answers answer.
Proof.
  induction rules as [| [pat act] rules IH]; cbn [search_rules].
  - intros [= <- <-]. left. auto.
  - destruct (match_ pat src) as [mat |] eqn:Hm.
    + intros Hrun. right.
      apply bind_Ret_inv in Hrun as (o1 & answer & o2 & Hact & [= <- <-] & ->).
      exists pat, act, mat, answer. rewrite app_nil_r.
      repeat split; auto. left. reflexivity.
    + intros Hrun. destruct (IH Hrun) as [Hnone | Hsome]; [left; exact Hnone |].
      destruct Hsome as (p & a & m & ans & Hin & Hrest).
      right. exists p, a, m, ans. split; [right; exact Hin | exact Hrest].
Qed.

(** X11: whatever the rules are, the dispatcher never returns an empty list
    of answers. *)
Theorem search_rules_never_empty (rules : list (Pattern * Action))
    (src : list string) (out : list event) (answers : list string) :
  search_rules rules src = (out, Ret answers) -> answers <> [].
Proof.
  intros Hrun.
  destruct (search_rules_answer rules src out answers Hrun)
    as [[_ ->] | (pat & act & mat & answer & _ & _ & _ & ->)].
  - discriminate.
  - destruct answer; discriminate.
Qed.

Lemma search_rules_never_empty_witness :
  ["No answers"] <> [].
Proof.
  apply (search_rules_never_empty silent_rules ["hello"] []).
  reflexivity.
Defined.

Lemma one_answer (m : M string) (out : list event) (answer : list string) :
  bind m (fun a => ret [a]) = (out, Ret answer) -> exists a, answer = [a].
Proof.
  intros Hrun.
  apply bind_Ret_inv in Hrun as (o1 & a & o2 & _ & [= _ <-] & _).
  exists a. reflexivity.
Qed.

Lemma registered_action_one_answer (W : World) (pat : Pattern) (act : Action)
    (mat : list string) (out : list event) (answer : list string) :
  In (pat, act) (pa_list W) ->
  act mat = (out, Ret answer) ->
  exists a, answer = [a].
Proof.
  unfold pa_list. intros Hin Hact.
  repeat (destruct Hin as [Hin | Hin];
          [ injection Hin as _ <-;
            first
              [ exact (one_answer _ _ _ Hact)
              | apply bind_Ret_inv in Hact as (o1 & x & o2 & _ & Hact & _);
                exact (one_answer _ _ _ Hact)
              | discriminate Hact ]
          | ]).
  destruct Hin.
Qed.

(** X12: every action of the registry, when it returns, returns exactly one
    answer; so [search_pa_list], when it returns, returns exactly one answer,
    and for a matched question that answer is the action's own: the
    "No answers" branch is never taken for the registered rules. *)
Theorem registered_rules_give_one_answer (W : World) :
  (forall pat act mat out answer,
     In (pat, act) (pa_list W) ->
     act mat = (out, Ret answer) ->
     exists a, answer = [a] /\ or_no_answers answer = [a])
  /\ (forall src out answers,
        search_pa_list W src = (out, Ret answers) ->
        exists a, answers = [a]).
Proof.
  split.
  - intros pat act mat out answer Hin Hact.
    destruct (registered_action_one_answer W pat act mat out answer Hin Hact)
      as (a & ->).
    exists a. auto.
  - intros src out answers Hrun. unfold search_pa_list in Hrun.
    destruct (search_rules_answer _ _ _ _ Hrun)
      as [[_ ->] | (pat & act & mat & answer & Hin & _ & Hact & ->)].
    + eexists. reflexivity.
    + destruct (registered_action_one_answer W pat act mat out answer Hin Hact)
        as (a & ->).
      exists a. reflexivity.
Qed.

Lemma registered_rules_give_one_answer_witness :
  exists a,
    ["paris has a population of 2,048,472"] = [a].
Proof.
  apply (proj2 (registered_rules_give_one_answer example_world)
           ["what"; "is"; "the"; "population"; "of"; "paris"]
           [Print "Metro (2021[2])18,940.7 km2 (7,313.0 sq mi)Population (Jan 2025[3])2,048,472 Rank9th in Europe1st in France"]).
  vm_compute. reflexivity.
Defined.

(** ** Sessions *)

Lemma query_turn_uncaught (W : World) (typed : outcome string)
    (out : list event) (e : exn) :
  query_turn W typed = (out, Uncaught e) -> ~ handled e.
Proof.
  unfold query_turn.
  destruct (query_try W typed) as [o [[] | e']];
    [discriminate | destruct e'; try discriminate];
    intros [= _ <-]; exact (fun H => H).
Qed.

Lemma query_turns_uncaught (W : World) (inputs : list (outcome string))
    (out : list event) (e : exn) :
  query_turns W inputs = (out, Uncaught e) -> ~ handled e.
Proof.
  revert out. induction inputs as [| typed later IH]; intros out;
    cbn [query_turns].
  - apply query_turn_uncaught.
  - destruct (query_turn W typed) as [o c] eqn:Hturn.
    destruct c as [| | e'].
    + destruct (query_turns W later) as [o' c'] eqn:Hlater.
      intros [= _ ->]. exact (IH _ eq_refl).
    + discriminate.
    + intros [= _ ->]. exact (query_turn_uncaught W typed o e Hturn).
Qed.

(** X13: the exception that [query_loop] ends with, if any, is never an
    [AttributeError], a [KeyboardInterrupt] or an [EOFError]; and when
    [query_loop] returns normally, the last thing it wrote is the farewell. *)
Theorem query_loop_ends (W : World) (inputs : list (outcome string)) :
  match snd (query_loop W inputs) with
  | Some e => ~ handled e
  | None =>
      exists written,
        fst (query_loop W inputs)
        = (written ++ [Print (String Str.nl "So long!" ++ String Str.nl "")])%list
  end.
Proof.
  unfold query_loop.
  destruct (query_turns W inputs) as [out c] eqn:Hturns.
  destruct c as [| | e]; cbn [fst snd].
  - eexists. rewrite app_comm_cons. reflexivity.
  - eexists. rewrite app_comm_cons. reflexivity.
  - exact (query_turns_uncaught W inputs out e Hturns).
Qed.

(** X14: when the first rule that matches a line is the one of [bye_action],
    the pass through the loop writes only the empty line and the prompt and
    leaves the loop: the lines after it are never read, and the session ends
    with the farewell. *)
Theorem bye_ends_the_session (W : World) (line : string)
    (before after : list (Pattern * Action)) (pat : Pattern)
    (mat : list string) (later : list (outcome string)) :
  pa_list W = (before ++ (pat, bye_action) :: after)%list ->
  Forall (no_match (normalize line)) before ->
  match_ pat (normalize line) = Some mat ->
  query_turns W (Ret line :: later) = (turn_preamble, Break)
  /\ query_loop W (Ret line :: later)
     = ([Print ("Welcome to the wikipedia database!" ++ String Str.nl "");
         Print ""; Prompt "Your query? ";
         Print (String Str.nl "So long!" ++ String Str.nl "")], None).
Proof.
  intros Hrules Hbefore Hpat.
  assert (Hturn : query_turn W (Ret line) = (turn_preamble, Break)).
  { unfold query_turn.
    rewrite (query_turn_dispatch W line [] (Raise KeyboardInterrupt)).
    - reflexivity.
    - unfold search_pa_list. rewrite Hrules.
      rewrite (search_rules_first _ before after pat bye_action mat)
        by assumption.
      reflexivity. }
  assert (Hturns : query_turns W (Ret line :: later) = (turn_preamble, Break)).
  { cbn [query_turns]. rewrite Hturn. reflexivity. }
  split; [exact Hturns |].
  unfold query_loop. rewrite Hturns. reflexivity.
Qed.

Lemma bye_ends_the_session_witness :
  query_turns example_world
    [Ret "Bye?"; Ret "What is the population of Paris?"]
  = (turn_preamble, Break).
Proof.
  refine (proj1 (bye_ends_the_session example_world "Bye?"
            (firstn 6 (pa_list example_world)) [] ["bye"] []
            [Ret "What is the population of Paris?"] eq_refl _ _)).
  - repeat (constructor; [vm_compute; reflexivity |]). constructor.
  - vm_compute. reflexivity.
Defined.

(** ** Lines that differ only in case and question marks *)

Lemma replace_without_question_mark (s : string) :
  all_chars (fun c => negb (Ascii.eqb c "?")) s = true ->
  Str.replace_from "?" "" s 0 = s.
Proof.
  induction s as [| c s IH]; [reflexivity |].
  cbn [all_chars Str.replace_from Str.startswith]. intros H.
  apply andb_prop in H as [Hc Hs].
  apply negb_true_iff in Hc. rewrite Ascii.eqb_sym, Hc. cbn [andb].
  rewrite (IH Hs). reflexivity.
Qed.

Lemma all_chars_weaken (P Q : ascii -> bool) (s : string) :
  (forall c, P c = true -> Q c = true) ->
  all_chars P s = true -> all_chars Q s = true.
Proof.
  intros Himp. induction s as [| c s IH]; [reflexivity |].
  cbn [all_chars]. intros H. apply andb_prop in H as [Hc Hs].
  rewrite (Himp c Hc), (IH Hs). reflexivity.
Qed.

Lemma normalized_line_fixed (line : string) :
  Str.lower (Str.replace (Str.lower (Str.replace line "?" "")) "?" "")
  = Str.lower (Str.replace line "?" "").
Proof.
  pose proof (lower_all_normalized _ (replace_question_mark line 0)) as Hnorm.
  change (Str.replace_from "?" "" line 0) with (Str.replace line "?" "") in Hnorm.
  set (s := Str.lower (Str.replace line "?" "")) in *.
  unfold Str.replace at 1.
  rewrite replace_without_question_mark.
  - exact (proj1 (normalized_token s Hnorm)).
  - apply (all_chars_weaken normalized_char); [| exact Hnorm].
    intros c Hc. unfold normalized_char in Hc.
    apply andb_prop in Hc as [_ Hc]. exact Hc.
Qed.

(** X16: a line and the line with its question marks removed and its letters
    in lower case get the same tokens and the same pass through the loop. *)
Theorem query_turn_ignores_case_and_question_marks (W : World) (line : string) :
  normalize (Str.lower (Str.replace line "?" "")) = normalize line
  /\ query_turn W (Ret (Str.lower (Str.replace line "?" "")))
     = query_turn W (Ret line).
Proof.
  assert (Hnorm : normalize (Str.lower (Str.replace line "?" ""))
                  = normalize line).
  { unfold normalize. rewrite normalized_line_fixed. reflexivity. }
  split; [exact Hnorm |].
  unfold query_turn.
  destruct (search_pa_list W (normalize line)) as [out r] eqn:Hs.
  rewrite (query_turn_dispatch W line out r Hs).
  rewrite (query_turn_dispatch W _ out r); [reflexivity |].
  rewrite Hnorm. exact Hs.
Qed.

(** X17: a line that holds no token (empty, or nothing but white space and
    question marks) is answered with "I don't understand", and the loop goes
    on. *)
Theorem blank_line_not_understood (W : World) (line : string) :
  normalize line = [] ->
  query_turn W (Ret line)
  = ((turn_preamble ++ [Print "I don't understand"])%list, Continue).
Proof.
  intros Hblank. unfold query_turn.
  rewrite (query_turn_dispatch W line [] (Ret ["I don't understand"])).
  - reflexivity.
  - rewrite Hblank. reflexivity.
Qed.

Lemma blank_line_not_understood_witness :
  query_turn example_world (Ret " ?? ")
  = ((turn_preamble ++ [Print "I don't understand"])%list, Continue).
Proof.
  apply (blank_line_not_understood example_world " ?? ").
  vm_compute. reflexivity.
Defined.
